(** * Wix HTTP functions: field update, bulk image import, upload callback

    A shallow embedding of the Velo backend code of the repository
    ([uploadImageToItem.js], [codeToUpdateAnyField], the bulk image uploader
    and the older copy of [uploadImageToItem]) and the properties of its
    design specification.

    JavaScript values are an inductive type, objects used as dictionaries are
    finite maps, and the calls into the platform ([wix-secrets-backend],
    [wix-data], [wix-media-backend], [console]) are recorded in a trace by a
    small state-and-exception monad; what the platform answers is given by
    oracles that see the whole history of calls. *)

From Stdlib Require Import ZArith Ascii String List Bool Lia.
From stdpp Require Import base option list gmap strings pretty.

Local Open Scope Z_scope.
Local Open Scope string_scope.
Local Open Scope list_scope.

(** ** JavaScript values *)

(** The values that reach the handlers: parsed JSON, the [Date] objects the
    reducer creates, and the built-in objects a property read can find on
    [Object.prototype].  Numbers are the integral ones: the code only compares
    a number with [1] and tests it for truthiness. *)
#[warnings="-register-all"]
Inductive value : Type :=
| VUndefined
| VNull
| VBool (b : bool)
| VNum (n : Z)
| VStr (s : string)
| VArr (elements : list value)
| VObj (properties : list (string * value))
| VDate (source : value)
| VNative (name : string).

(** [!v] is [negb (truthy v)]. *)
Definition truthy (v : value) : bool :=
  match v with
  | VUndefined | VNull => false
  | VBool b => b
  | VNum n => negb (n =? 0)%Z
  | VStr s => negb (String.eqb s EmptyString)
  | VArr _ | VObj _ | VDate _ | VNative _ => true
  end.

(** [a || b] *)
Definition js_or (a b : value) : value := if truthy a then a else b.

(** [a === b] where at least one side is a primitive: an object is identical
    only to itself, never to a string, number or boolean. *)
Definition strict_eq (a b : value) : bool :=
  match a, b with
  | VUndefined, VUndefined => true
  | VNull, VNull => true
  | VBool x, VBool y => Bool.eqb x y
  | VNum x, VNum y => (x =? y)%Z
  | VStr x, VStr y => String.eqb x y
  | _, _ => false
  end.

Definition Array_isArray (v : value) : bool :=
  match v with VArr _ => true | _ => false end.

Definition nullish (v : value) : bool :=
  match v with VUndefined | VNull => true | _ => false end.

(** ** Strings *)

Fixpoint startsWith (s searchString : string) {struct searchString} : bool :=
  match searchString, s with
  | EmptyString, _ => true
  | String _ _, EmptyString => false
  | String c p, String d s' => if Ascii.eqb c d then startsWith s' p else false
  end.

Fixpoint string_drop (n : nat) (s : string) : string :=
  match n, s with
  | O, _ => s
  | S _, EmptyString => EmptyString
  | S n', String _ s' => string_drop n' s'
  end.

(** [s.replace(searchValue, replaceValue)] with a string pattern: only the
    first occurrence is replaced. *)
Fixpoint replace (s searchValue replaceValue : string) : string :=
  if startsWith s searchValue
  then replaceValue +:+ string_drop (String.length searchValue) s
  else match s with
       | EmptyString => EmptyString
       | String c s' => String c (replace s' searchValue replaceValue)
       end.

(** [s.split(sep)] for a one-character separator; never the empty list. *)
Fixpoint split (sep : ascii) (s : string) : list string :=
  match s with
  | EmptyString => [EmptyString]
  | String c s' =>
      if Ascii.eqb c sep then EmptyString :: split sep s'
      else match split sep s' with
           | h :: t => String c h :: t
           | [] => [String c EmptyString]
           end
  end.

(** [parts.pop()] on the result of [split]: the last element. *)
Definition pop (parts : list string) : string := List.last parts EmptyString.

Definition lower_ascii (c : ascii) : ascii :=
  let n := nat_of_ascii c in
  if (65 <=? n)%nat && (n <=? 90)%nat then ascii_of_nat (n + 32) else c.

(** [s.toLowerCase()] on the ASCII letters. *)
Fixpoint toLowerCase (s : string) : string :=
  match s with
  | EmptyString => EmptyString
  | String c s' => String (lower_ascii c) (toLowerCase s')
  end.

Definition quoted (s : string) : string :=
  String (ascii_of_nat 34) s +:+ String (ascii_of_nat 34) EmptyString.

Fixpoint join (sep : string) (parts : list string) : string :=
  match parts with
  | [] => EmptyString
  | [p] => p
  | p :: rest => p +:+ sep +:+ join sep rest
  end.

(** The text a template literal or a property key gets from a value that
    converts ([ToString_call] below says which values do not).  The text of a
    [Date] depends on the host's time zone and stands here as [Date(...)];
    the handlers only convert values of the request body and of the event,
    which hold no [Date].  The text of a number is exact for the safe
    integers; beyond them the engine rounds or prints an exponent. *)
Fixpoint ToString (v : value) : string :=
  match v with
  | VUndefined => "undefined"
  | VNull => "null"
  | VBool true => "true"
  | VBool false => "false"
  | VNum n => pretty n
  | VStr s => s
  | VArr l =>
      join "," (map (fun x => match x with
                              | VUndefined | VNull => EmptyString
                              | _ => ToString x
                              end) l)
  | VObj _ => "[object Object]"
  | VDate src => "Date(" +:+ ToString src +:+ ")"
  | VNative name =>
      if String.eqb name "Object.prototype" then "[object Object]"
      else "function " +:+ name +:+ "() { [native code] }"
  end.

(** ** Objects *)

(** Own properties of a parsed JSON object, in property order. *)
Fixpoint own_property (props : list (string * value)) (k : string) : option value :=
  match props with
  | [] => None
  | (k', v) :: rest => if String.eqb k' k then Some v else own_property rest k
  end.

(** What a property read finds on [Object.prototype] when the object itself
    has no such property. *)
Definition Object_prototype (k : string) : value :=
  if String.eqb k "constructor" then VNative "Object"
  else if String.eqb k "__proto__" then VNative "Object.prototype"
  else if String.eqb k "hasOwnProperty" then VNative "hasOwnProperty"
  else if String.eqb k "isPrototypeOf" then VNative "isPrototypeOf"
  else if String.eqb k "propertyIsEnumerable" then VNative "propertyIsEnumerable"
  else if String.eqb k "toString" then VNative "toString"
  else if String.eqb k "toLocaleString" then VNative "toLocaleString"
  else if String.eqb k "valueOf" then VNative "valueOf"
  else if String.eqb k "__defineGetter__" then VNative "__defineGetter__"
  else if String.eqb k "__defineSetter__" then VNative "__defineSetter__"
  else if String.eqb k "__lookupGetter__" then VNative "__lookupGetter__"
  else if String.eqb k "__lookupSetter__" then VNative "__lookupSetter__"
  else VUndefined.

(** [o[k]] for an object literal or a parsed JSON object [o]. *)
Definition read_property (props : list (string * value)) (k : string) : value :=
  match own_property props k with
  | Some v => v
  | None => Object_prototype k
  end.

(** Whether converting a value to a primitive throws.  The own properties of
    a parsed JSON object are JSON values, none of them callable: an own
    [toString] key hides the inherited method, and [valueOf] only gives the
    object back, so no primitive is reached.  An array converts by joining
    the texts of its elements, [null] and [undefined] giving the empty
    text. *)
Fixpoint ToPrimitive_throws (v : value) : bool :=
  match v with
  | VObj props =>
      match own_property props "toString" with
      | Some _ => true
      | None => false
      end
  | VArr l => existsb ToPrimitive_throws l
  | _ => false
  end.

(** The object literal [map] of [getMimeType]. *)
Definition mime_map : list (string * value) :=
  [ ("jpg", VStr "image/jpeg");
    ("jpeg", VStr "image/jpeg");
    ("png", VStr "image/png");
    ("webp", VStr "image/webp");
    ("gif", VStr "image/gif") ].

(** ** Exceptions, effects and the platform *)

Inductive exn : Type :=
| TypeError (msg : string)
| Error (msg : string)
| Rejection (msg : string).

(** [err.message] *)
Definition message (err : exn) : string :=
  match err with TypeError m | Error m | Rejection m => m end.

Inductive outcome (A : Type) : Type :=
| Returns (a : A)
| Throws (err : exn).
Arguments Returns {A} a.
Arguments Throws {A} err.

Definition conversion_error : exn :=
  TypeError "Cannot convert object to primitive value".

(** [`${v}`] and the conversion of [v] to a property key. *)
Definition ToString_call (v : value) : outcome string :=
  if ToPrimitive_throws v then Throws conversion_error else Returns (ToString v).

(** [new Date(v)]: the constructor converts an object to a primitive first. *)
Definition new_Date (v : value) : outcome value :=
  if ToPrimitive_throws v then Throws conversion_error else Returns (VDate v).

Inductive level : Type := LogLevel | InfoLevel | WarnLevel | ErrorLevel.

(** The [context] of [metadataOptions]. *)
Record importContext : Type := {
  ctx_collectionName : string;
  ctx_itemId : string;
  ctx_fieldName : string
}.

(** One entry of [uploadedResults]. *)
Record uploadResult : Type := {
  originalUrl : value;
  fileUrl : value;
  fileName : value;
  mediaId : value
}.

(** A call into the platform.  [ImportFile] always asks for
    [mediaType: "image"], [isPrivate: false], [isVisitorUpload: false]. *)
Inductive effect : Type :=
| GetSecret (name : string)
| WixDataGet (collectionName itemId : value)
| WixDataUpdate (collectionName : value) (item : gmap string value)
| WixDataReplaceReferences (collectionName : value) (fieldName : string)
    (itemId : value) (ids : list value)
| ImportFile (path : string) (url : value) (mimeType : value)
    (context : option importContext)
| Console (lvl : level) (text : string).

(** Calls in the order they were made, the oldest first. *)
Definition trace : Type := list effect.

(** What the platform answers.  Every oracle sees the calls made so far, so
    an answer may depend on earlier writes; [wixData_get] resolves to the item
    or to [null] ([None]). *)
Record platform : Type := {
  getSecret : trace -> string -> outcome string;
  wixData_get : trace -> value -> value -> outcome (option (gmap string value));
  wixData_update : trace -> value -> gmap string value -> outcome unit;
  wixData_replaceReferences :
    trace -> value -> string -> value -> list value -> outcome unit;
  mediaManager_importFile :
    trace -> string -> value -> value -> option importContext -> outcome value;
  Date_now : trace -> Z
}.

(** ** The monad of handlers: a trace and an exception *)

Definition M (A : Type) : Type := trace -> outcome A * trace.

Global Instance M_ret : MRet M := fun A a h => (Returns a, h).

Global Instance M_bind : MBind M := fun A B k m h =>
  match m h with
  | (Returns a, h') => k a h'
  | (Throws err, h') => (Throws err, h')
  end.

Definition throw {A : Type} (err : exn) : M A := fun h => (Throws err, h).

(** [try { m } catch (err) { handler err }] *)
Definition try_catch {A : Type} (m : M A) (handler : exn -> M A) : M A :=
  fun h =>
    match m h with
    | (Returns a, h') => (Returns a, h')
    | (Throws err, h') => handler err h'
    end.

(** A value computed without the platform. *)
Definition lift {A : Type} (o : outcome A) : M A := fun h => (o, h).

(** [await] of a platform call: the oracle answers from the history, and the
    call is appended to it. *)
Definition call {A : Type} (e : effect) (oracle : trace -> outcome A) : M A :=
  fun h => (oracle h, h ++ [e]).

Definition console (lvl : level) (text : string) : M unit :=
  fun h => (Returns tt, h ++ [Console lvl text]).

(** The result of a handler started with an empty history. *)
Definition run {A : Type} (m : M A) : outcome A * trace := m [].

(** ** Requests and responses *)

(** [request.headers] and the promise of [request.body.json()]. *)
Record request : Type := {
  headers : gmap string string;
  body_json : outcome value
}.

Inductive responseBody : Type :=
| body_error (msg : string)
| body_success
| body_uploaded (uploaded : list uploadResult).

Inductive response : Type :=
| ok (body : responseBody)
| badRequest (body : responseBody).

(** [headers.name]: the header's text, or [undefined]. *)
Definition header (hs : gmap string string) (name : string) : value :=
  match hs !! name with
  | Some s => VStr s
  | None => VUndefined
  end.

(** [v.k] and [const { k } = v].  Only an object has own properties under the
    names the handlers read; [null] and [undefined] have none at all. *)
Definition property (v : value) (k : string) : outcome value :=
  match v with
  | VUndefined | VNull =>
      Throws (TypeError ("Cannot read properties of " +:+ ToString v))
  | VObj props => Returns (read_property props k)
  | _ => Returns (Object_prototype k)
  end.

(** [v?.k] *)
Definition optional_property (v : value) (k : string) : value :=
  match property v k with
  | Returns x => x
  | Throws _ => VUndefined
  end.

(** [Object.entries(v)] of a truthy value: the own enumerable properties of an
    object, the indexed elements of an array or of a string. *)
Fixpoint string_chars (s : string) : list value :=
  match s with
  | EmptyString => []
  | String c s' => VStr (String c EmptyString) :: string_chars s'
  end.

Definition indexed (l : list value) : list (string * value) :=
  imap (fun i v => (pretty i, v)) l.

Definition Object_entries (v : value) : list (string * value) :=
  match v with
  | VObj props => props
  | VArr l => indexed l
  | VStr s => indexed (string_chars s)
  | _ => []
  end.

(** ** The accumulator of the reducer *)

(** An ordinary object created by [{}]: its own properties, and whether an
    assignment to [__proto__] still reaches the accessor it inherits from
    [Object.prototype] (it does until the prototype is replaced by [null] or
    by an object with an own [__proto__] property). *)
Record object : Type := {
  props : gmap string value;
  proto_accessor : bool
}.

Definition empty_object : object := {| props := ∅; proto_accessor := true |}.

Definition define (o : object) (k : string) (v : value) : object :=
  {| props := <[k := v]> (props o); proto_accessor := proto_accessor o |}.

Definition is_object_or_null (v : value) : bool :=
  match v with
  | VNull | VArr _ | VObj _ | VDate _ | VNative _ => true
  | _ => false
  end.

Definition inherits_proto_accessor (prototype : value) : bool :=
  match prototype with
  | VNull => false
  | VObj ps => match own_property ps "__proto__" with Some _ => false | None => true end
  | _ => true
  end.

(** [o[k] = v].  Every name but [__proto__] becomes an own property.  The
    inherited accessor of [__proto__] replaces the prototype when [v] is an
    object or [null], ignores any other [v], and never creates a property. *)
Definition assign (o : object) (k : string) (v : value) : object :=
  if String.eqb k "__proto__" then
    match props o !! k with
    | Some _ => define o k v
    | None =>
        if proto_accessor o then
          if is_object_or_null v
          then {| props := props o; proto_accessor := inherits_proto_accessor v |}
          else o
        else define o k v
    end
  else define o k v.

(** One entry of [multiRefUpdates]. *)
Record multiRefUpdate : Type := {
  fieldName : string;
  ids : list value
}.

Definition array_elements (v : value) : list value :=
  match v with VArr l => l | _ => [] end.

(** The [safebool_] coercion:
    [value === true || value === "true" || value === 1 || value === "1"]. *)
Definition safebool (v : value) : bool :=
  strict_eq v (VBool true) || strict_eq v (VStr "true")
  || strict_eq v (VNum 1) || strict_eq v (VStr "1").

(** The callback of [Object.entries(updates).reduce(...)], as far as it
    returns: what it leaves in the accumulator and in [multiRefUpdates], the
    array it pushes to, threaded next to the accumulator.  [reducer_call]
    below says when [new Date(value)] throws instead. *)
Definition reducer (st : object * list multiRefUpdate) (entry : string * value)
  : object * list multiRefUpdate :=
  let '(acc, multiRefUpdates) := st in
  let '(key, v) := entry in
  if startsWith key "date_" then
    let realKey := replace key "date_" EmptyString in
    (assign acc realKey (VDate v), multiRefUpdates)
  else if startsWith key "refs_" then
    let realKey := replace key "refs_" EmptyString in
    if Array_isArray v
    then (acc, multiRefUpdates ++ [ {| fieldName := realKey; ids := array_elements v |} ])
    else (acc, multiRefUpdates)
  else if startsWith key "safebool_" then
    let realKey := replace key "safebool_" EmptyString in
    (assign acc realKey (VBool (safebool v)), multiRefUpdates)
  else
    (assign acc key v, multiRefUpdates).

Definition reduce (entries : list (string * value)) : object * list multiRefUpdate :=
  foldl reducer (empty_object, []) entries.

(** The callback as it runs: for a [date_] key, [new Date(value)] is built
    first and may throw. *)
Definition reducer_call (st : object * list multiRefUpdate) (entry : string * value)
  : outcome (object * list multiRefUpdate) :=
  if startsWith entry.1 "date_" then
    match new_Date entry.2 with
    | Returns _ => Returns (reducer st entry)
    | Throws err => Throws err
    end
  else Returns (reducer st entry).

(** [Object.entries(updates).reduce(...)] as it runs: the first exception
    ends it. *)
Fixpoint reduce_call (entries : list (string * value))
    (st : object * list multiRefUpdate) : outcome (object * list multiRefUpdate) :=
  match entries with
  | [] => Returns st
  | entry :: rest =>
      match reducer_call st entry with
      | Returns st' => reduce_call rest st'
      | Throws err => Throws err
      end
  end.

(** [cleanedUpdates] and [multiRefUpdates] after the reduction. *)
Definition cleanedUpdates (updates : value) : object :=
  fst (reduce (Object_entries updates)).

Definition multiRefUpdates (updates : value) : list multiRefUpdate :=
  snd (reduce (Object_entries updates)).

(** [{ ...existingItem, ...cleanedUpdates }]: own properties, the updates
    winning. *)
Definition updatedItem (existingItem : gmap string value) (updates : value)
  : gmap string value :=
  props (cleanedUpdates updates) ∪ existingItem.

(** ** isPermitted *)

(** [isPermitted(headers)].  The copies of the function differ only in the
    name of the secret: ["make_connector"] in [uploadImageToItem.js],
    ["my_secret"] in [codeToUpdateAnyField]. *)
Definition isPermitted (P : platform) (secretName : string)
    (hs : gmap string string) : M bool :=
  try_catch
    (let authHeader := js_or (header hs "authorization") (header hs "auth") in
     sharedAuthKey ← call (GetSecret secretName) (fun h => getSecret P h secretName);
     mret (strict_eq authHeader (VStr sharedAuthKey)))
    (fun err =>
       console ErrorLevel "Error in authorization check:";;
       mret false).

Definition not_authorized : response := badRequest (body_error "Not authorized").

(** ** post_updateItemField ([codeToUpdateAnyField]) *)

(** [for (const ref of multiRefUpdates) await wixData.replaceReferences(...)] *)
Fixpoint replaceReferences_loop (P : platform) (collectionName itemId : value)
    (refs : list multiRefUpdate) : M unit :=
  match refs with
  | [] => mret tt
  | ref :: rest =>
      call (WixDataReplaceReferences collectionName (fieldName ref) itemId (ids ref))
           (fun h => wixData_replaceReferences P h collectionName (fieldName ref)
                       itemId (ids ref));;
      replaceReferences_loop P collectionName itemId rest
  end.

Definition missing_fields : exn :=
  Error "Missing required fields: collectionName, itemId, or updates".

Definition item_not_found (itemId collectionName : string) : exn :=
  Error ("Item with ID " +:+ itemId +:+ " not found in collection " +:+ collectionName).

Definition post_updateItemField (P : platform) (req : request) : M response :=
  permitted ← isPermitted P "my_secret" (headers req);
  if negb permitted then mret not_authorized
  else
    try_catch
      (body ← lift (body_json req);
       collectionName ← lift (property body "collectionName");
       itemId ← lift (property body "itemId");
       updates ← lift (property body "updates");
       if negb (truthy collectionName) || negb (truthy itemId) || negb (truthy updates)
       then throw missing_fields
       else
         existingItem ← call (WixDataGet collectionName itemId)
                             (fun h => wixData_get P h collectionName itemId);
         match existingItem with
         | None =>
             id ← lift (ToString_call itemId);
             collection ← lift (ToString_call collectionName);
             throw (item_not_found id collection)
         | Some existingItem =>
             reduced ← lift (reduce_call (Object_entries updates) (empty_object, []));
             let item := props (fst reduced) ∪ existingItem in
             call (WixDataUpdate collectionName item)
                  (fun h => wixData_update P h collectionName item);;
             replaceReferences_loop P collectionName itemId (snd reduced);;
             mret (ok body_success)
         end)
      (fun err =>
         console ErrorLevel "Error updating item:";;
         mret (badRequest (body_error (message err)))).

(** ** post_imageBulkUploader *)

(** [v.split(sep)]: only a string has the method. *)
Definition split_method (v : value) (sep : ascii) : outcome (list string) :=
  match v with
  | VStr s => Returns (split sep s)
  | VUndefined | VNull => Throws (TypeError ("Cannot read properties of " +:+ ToString v))
  | _ => Throws (TypeError "split is not a function")
  end.

(** [getMimeType(fileName)].  The extension is looked up in the object
    literal [map], so a name that [map] inherits is found as well. *)
Definition getMimeType (fileName : value) : outcome value :=
  match split_method fileName "." with
  | Returns parts =>
      let ext := toLowerCase (pop parts) in
      Returns (js_or (read_property mime_map ext) (VStr "image/jpeg"))
  | Throws err => Throws err
  end.

Definition timestamp_name (P : platform) : M value :=
  fun h => (Returns (VStr ("image-" +:+ pretty (Date_now P h) +:+ ".jpg")), h).

(** [publicUrl.split('/').pop() || `image-${Date.now()}.jpg`] *)
Definition name_from_url (P : platform) (url : value) : M value :=
  parts ← lift (split_method url "/");
  if truthy (VStr (pop parts)) then mret (VStr (pop parts)) else timestamp_name P.

(** The body of the loop over [images]: [None] is [continue]. *)
Definition upload_image (P : platform) (folderName image : value)
    : M (option uploadResult) :=
  imageName ← lift (property image "imageName");
  publicUrl ← lift (property image "publicUrl");
  if negb (truthy publicUrl) then
    console WarnLevel "Skipping image without publicUrl";;
    mret None
  else
    fileName ← (if truthy imageName then mret imageName else name_from_url P publicUrl);
    mimeType ← lift (getMimeType fileName);
    folder ← lift (ToString_call folderName);
    importResult ← call (ImportFile ("/" +:+ folder) publicUrl mimeType None)
                        (fun h => mediaManager_importFile P h ("/" +:+ folder)
                                    publicUrl mimeType None);
    resultUrl ← lift (property importResult "fileUrl");
    resultName ← lift (property importResult "fileName");
    resultId ← lift (property importResult "mediaId");
    mret (Some {| originalUrl := publicUrl; fileUrl := resultUrl;
                  fileName := resultName; mediaId := resultId |}).

(** [for (const image of images) { ... uploadedResults.push(...) }] *)
Fixpoint upload_loop (P : platform) (folderName : value) (images : list value)
    (uploadedResults : list uploadResult) : M (list uploadResult) :=
  match images with
  | [] => mret uploadedResults
  | image :: rest =>
      pushed ← upload_image P folderName image;
      upload_loop P folderName rest
        (match pushed with
         | Some r => uploadedResults ++ [r]
         | None => uploadedResults
         end)
  end.

Definition invalid_bulk_body : exn :=
  Error "Missing or invalid 'folderName' or 'images' array".

Definition post_imageBulkUploader (P : platform) (req : request) : M response :=
  permitted ← isPermitted P "my_secret" (headers req);
  if negb permitted then mret not_authorized
  else
    try_catch
      (body ← lift (body_json req);
       folderName ← lift (property body "folderName");
       images ← lift (property body "images");
       if negb (truthy folderName) || negb (Array_isArray images)
       then throw invalid_bulk_body
       else
         uploadedResults ← upload_loop P folderName (array_elements images) [];
         mret (ok (body_uploaded uploadedResults)))
      (fun err =>
         console ErrorLevel "Image upload error:";;
         mret (badRequest (body_error (message err)))).

(** ** post_uploadImageToItem ([uploadImageToItem.js]) *)

(** The body of the loop over [Object.entries(updates)]. *)
Definition import_entry (P : platform) (collectionName itemId : value)
    (entry : string * value) : M unit :=
  let '(key, v) := entry in
  if startsWith key "image_" then
    let realKey := replace key "image_" EmptyString in
    fileName ← name_from_url P v;
    mimeType ← lift (getMimeType fileName);
    collection ← lift (ToString_call collectionName);
    id ← lift (ToString_call itemId);
    let ctx := {| ctx_collectionName := collection;
                  ctx_itemId := id;
                  ctx_fieldName := realKey |} in
    call (ImportFile ("/" +:+ collection) v mimeType (Some ctx))
         (fun h => mediaManager_importFile P h ("/" +:+ collection)
                     v mimeType (Some ctx));;
    console LogLevel "importResult"
  else mret tt.

Fixpoint import_loop (P : platform) (collectionName itemId : value)
    (entries : list (string * value)) : M unit :=
  match entries with
  | [] => mret tt
  | entry :: rest =>
      import_entry P collectionName itemId entry;;
      import_loop P collectionName itemId rest
  end.

Definition post_uploadImageToItem (P : platform) (req : request) : M response :=
  permitted ← isPermitted P "make_connector" (headers req);
  if negb permitted then mret not_authorized
  else
    try_catch
      (body ← lift (body_json req);
       collectionName ← lift (property body "collectionName");
       itemId ← lift (property body "itemId");
       updates ← lift (property body "updates");
       if negb (truthy collectionName) || negb (truthy itemId) || negb (truthy updates)
       then throw missing_fields
       else
         import_loop P collectionName itemId (Object_entries updates);;
         mret (ok body_success))
      (fun err =>
         console ErrorLevel "Image upload error:";;
         mret (badRequest (body_error (message err)))).

(** ** wixMediaManager_onFileUploaded *)

(** The promise chain [wixData.get(...).then(...).then(...).catch(...)], run
    in the order of its steps. *)
Definition write_back (P : platform) (collectionName itemId fieldName fileInfo : value)
    : M unit :=
  try_catch
    (item ← call (WixDataGet collectionName itemId)
                 (fun h => wixData_get P h collectionName itemId);
     match item with
     | None => throw (TypeError "Cannot set properties of null")
     | Some item =>
         url ← lift (property fileInfo "fileUrl");
         field ← lift (ToString_call fieldName);
         let item' :=
           props (assign {| props := item; proto_accessor := true |} field url) in
         console LogLevel "fileInfo";;
         call (WixDataUpdate collectionName item')
              (fun h => wixData_update P h collectionName item');;
         id ← lift (ToString_call itemId);
         collection ← lift (ToString_call collectionName);
         console LogLevel ("Image field " +:+ quoted field +:+ " updated for item "
                           +:+ id +:+ " in " +:+ collection)
     end)
    (fun err => console ErrorLevel "Failed to update image field on item:").

(** The handler of [uploadImageToItem.js]: the guard reads the context with
    optional chaining. *)
Definition wixMediaManager_onFileUploaded (P : platform) (event : value) : M unit :=
  context ← lift (property event "context");
  fileInfo ← lift (property event "fileInfo");
  if truthy (optional_property context "collectionName")
     && truthy (optional_property context "itemId")
     && truthy (optional_property context "fieldName")
     && truthy (optional_property fileInfo "fileUrl")
  then
    collectionName ← lift (property context "collectionName");
    itemId ← lift (property context "itemId");
    fieldName ← lift (property context "fieldName");
    write_back P collectionName itemId fieldName fileInfo
  else
    console InfoLevel "onFileUploaded skipped: Missing context or fileUrl".

(** The copy of [uploadImageToItem] kept in [src/unnamed/part_000]: the same
    [isPermitted], [post_uploadImageToItem] and [getMimeType], and a handler
    that destructures the context before the guard. *)
Module OlderCopy.

Definition wixMediaManager_onFileUploaded (P : platform) (event : value) : M unit :=
  context ← lift (property event "context");
  fileInfo ← lift (property event "fileInfo");
  collectionName ← lift (property context "collectionName");
  itemId ← lift (property context "itemId");
  fieldName ← lift (property context "fieldName");
  if truthy collectionName && truthy itemId && truthy fieldName
     && truthy (optional_property fileInfo "fileUrl")
  then write_back P collectionName itemId fieldName fileInfo
  else console WarnLevel "Missing context or fileUrl in upload event:".

End OlderCopy.

(** ** The vocabulary of the properties *)

(** The MIME type the table gives for a lower-case extension, [image/jpeg]
    being the default. *)
Definition mime_of_extension (ext : string) : string :=
  if String.eqb "jpg" ext then "image/jpeg"
  else if String.eqb "jpeg" ext then "image/jpeg"
  else if String.eqb "png" ext then "image/png"
  else if String.eqb "webp" ext then "image/webp"
  else if String.eqb "gif" ext then "image/gif"
  else "image/jpeg".

(** The header value as the specification words it: [authorization], or
    [auth] when [authorization] is absent. *)
Definition header_value_when_absent (hs : gmap string string) : option string :=
  match hs !! "authorization" with
  | Some a => Some a
  | None => hs !! "auth"
  end.

(** The header value the code compares: [authorization] unless it is absent
    or empty, [auth] otherwise. *)
Definition header_value (hs : gmap string string) : option string :=
  match hs !! "authorization" with
  | Some a => if String.eqb a EmptyString then hs !! "auth" else Some a
  | None => hs !! "auth"
  end.

(** The answer of [isPermitted] as the specification words it. *)
Definition permitted_as_specified (P : platform) (secretName : string)
    (hs : gmap string string) (h : trace) : bool :=
  match getSecret P h secretName with
  | Returns secret => bool_decide (header_value_when_absent hs = Some secret)
  | Throws _ => false
  end.

(** Three views of the reducer, entry by entry ([reducer_eq] below relates
    them to it): the field an update key writes in the accumulator, if any. *)
Definition target (key : string) : option string :=
  if startsWith key "date_" then Some (replace key "date_" EmptyString)
  else if startsWith key "refs_" then None
  else if startsWith key "safebool_" then Some (replace key "safebool_" EmptyString)
  else Some key.

(** The value an update entry writes there. *)
Definition written (key : string) (v : value) : value :=
  if startsWith key "date_" then VDate v
  else if startsWith key "safebool_" then VBool (safebool v)
  else v.

(** The deferred operation an update entry records, if any. *)
Definition deferred (entry : string * value) : list multiRefUpdate :=
  if negb (startsWith entry.1 "date_") && startsWith entry.1 "refs_"
     && Array_isArray entry.2
  then [ {| fieldName := replace entry.1 "refs_" EmptyString;
            ids := array_elements entry.2 |} ]
  else [].

(** An update entry on which the reducer does not throw: any entry but a
    [date_] key whose value [new Date] cannot convert. *)
Definition date_constructible (entry : string * value) : bool :=
  negb (startsWith entry.1 "date_" && ToPrimitive_throws entry.2).

(** C1 as the specification words it: whatever else the updates and the
    existing record hold, the merged record has the coerced boolean under the
    stripped name and has no property under the prefixed key. *)
Definition safebool_as_specified (existing : gmap string value)
    (updates : list (string * value)) : Prop :=
  forall name v,
    In ("safebool_" +:+ name, v) updates ->
    updatedItem existing (VObj updates) !! name = Some (VBool (safebool v))
    /\ updatedItem existing (VObj updates) !! ("safebool_" +:+ name) = None.

(** C3 as the specification words it: the value of a key with the prefix
    [image_] or [refs_] is never merged verbatim under the literal key. *)
Definition intercepted_as_specified (updates : list (string * value)) : Prop :=
  forall key v,
    In (key, v) updates ->
    startsWith key "image_" = true \/ startsWith key "refs_" = true ->
    props (cleanedUpdates (VObj updates)) !! key <> Some v.

(** ** Platforms and requests of the examples *)

Definition import_result (url : value) : value :=
  VObj [ ("fileUrl", VStr ("wix:image://v1/" +:+ ToString url));
         ("fileName", VStr "stored");
         ("mediaId", VStr "m1") ].

(** A platform on which every call succeeds. *)
Definition reliable (secret : string) (stored : option (gmap string value)) : platform :=
  {| getSecret := fun _ _ => Returns secret;
     wixData_get := fun _ _ _ => Returns stored;
     wixData_update := fun _ _ _ => Returns tt;
     wixData_replaceReferences := fun _ _ _ _ _ => Returns tt;
     mediaManager_importFile := fun _ _ url _ _ => Returns (import_result url);
     Date_now := fun _ => 0%Z |}.

(** A platform whose secrets manager rejects. *)
Definition no_secret : platform :=
  {| getSecret := fun _ _ => Throws (Rejection "secret not found");
     wixData_get := fun _ _ _ => Returns None;
     wixData_update := fun _ _ _ => Returns tt;
     wixData_replaceReferences := fun _ _ _ _ _ => Returns tt;
     mediaManager_importFile := fun _ _ url _ _ => Returns (import_result url);
     Date_now := fun _ => 0%Z |}.

Definition empty_authorization_headers : gmap string string :=
  {[ "authorization" := EmptyString; "auth" := "secret1" ]}.

(** A request of [post_updateItemField] with the three fields of the body. *)
Definition update_request (hs : gmap string string) (collectionName itemId updates : value)
  : request :=
  {| headers := hs;
     body_json := Returns (VObj [ ("collectionName", collectionName);
                                  ("itemId", itemId);
                                  ("updates", updates) ]) |}.

Definition colliding_updates : list (string * value) :=
  [ ("safebool_x", VBool true); ("x", VStr "no") ].

Definition record_with_prefixed_field : gmap string value :=
  {[ "safebool_x" := VStr "old" ]}.

Definition image_updates : list (string * value) :=
  [ ("image_photo", VStr "http://x/a.png") ].

(** The call one deferred operation makes. *)
Definition replace_call (collectionName itemId : value) (ref : multiRefUpdate) : effect :=
  WixDataReplaceReferences collectionName (fieldName ref) itemId (ids ref).

(** The [catch] branch of a handler. *)
Definition caught (text : string) (err : exn) (h : trace) : outcome response * trace :=
  (Returns (badRequest (body_error (message err))), h ++ [Console ErrorLevel text]).

Definition stored_item : gmap string value :=
  {[ "_id" := VStr "item1"; "title" := VStr "old title" ]}.

Definition auth_headers : gmap string string := {[ "auth" := "secret1" ]}.

(** A request of [post_imageBulkUploader] with the two fields of the body. *)
Definition bulk_request (hs : gmap string string) (folderName images : value) : request :=
  {| headers := hs;
     body_json := Returns (VObj [ ("folderName", folderName); ("images", images) ]) |}.

(** The [publicUrl] of an entry of [images], and whether the entry has one. *)
Definition publicUrl_of (image : value) : value := optional_property image "publicUrl".

Definition has_publicUrl (image : value) : bool := truthy (publicUrl_of image).

(** A platform whose media manager rejects the import of one URL. *)
Definition rejecting (secret bad : string) : platform :=
  {| getSecret := fun _ _ => Returns secret;
     wixData_get := fun _ _ _ => Returns None;
     wixData_update := fun _ _ _ => Returns tt;
     wixData_replaceReferences := fun _ _ _ _ _ => Returns tt;
     mediaManager_importFile := fun _ _ url _ _ =>
       if strict_eq url (VStr bad) then Throws (Rejection "import failed")
       else Returns (import_result url);
     Date_now := fun _ => 0%Z |}.

Definition image_a : value :=
  VObj [ ("imageName", VStr "a.png"); ("publicUrl", VStr "http://x/a.png") ].

Definition image_b : value :=
  VObj [ ("imageName", VStr "b.jpg"); ("publicUrl", VStr "http://x/b.jpg") ].

Definition image_without_url : value := VObj [ ("publicUrl", VNull) ].

Definition image_bad : value := VObj [ ("publicUrl", VStr "http://x/bad.png") ].

(** An upload event without a context, as the media manager raises it for a
    file imported by [post_imageBulkUploader]. *)
Definition event_without_context : value :=
  VObj [ ("fileInfo", VObj [ ("fileUrl", VStr "wix:image://v1/a.png") ]) ].

Definition skipped_upload : effect :=
  Console InfoLevel "onFileUploaded skipped: Missing context or fileUrl".

(** The guard of the upload handler. *)
Definition upload_complete (context fileInfo : value) : bool :=
  truthy (optional_property context "collectionName")
  && truthy (optional_property context "itemId")
  && truthy (optional_property context "fieldName")
  && truthy (optional_property fileInfo "fileUrl").

Definition skipped_image : effect :=
  Console WarnLevel "Skipping image without publicUrl".

Definition complete_event : value :=
  VObj [ ("context", VObj [ ("collectionName", VStr "Books");
                            ("itemId", VStr "item1");
                            ("fieldName", VStr "cover") ]);
         ("fileInfo", VObj [ ("fileUrl", VStr "wix:image://v1/a.png") ]) ].

(** ** Platforms of the further examples *)

(** A platform whose data store rejects every update. *)
Definition update_rejecting (secret : string) (stored : option (gmap string value))
  : platform :=
  {| getSecret := fun _ _ => Returns secret;
     wixData_get := fun _ _ _ => Returns stored;
     wixData_update := fun _ _ _ => Throws (Rejection "update failed");
     wixData_replaceReferences := fun _ _ _ _ _ => Returns tt;
     mediaManager_importFile := fun _ _ url _ _ => Returns (import_result url);
     Date_now := fun _ => 0%Z |}.

(** A platform whose data store rejects the references of one field. *)
Definition references_rejecting (secret field : string)
    (stored : option (gmap string value)) : platform :=
  {| getSecret := fun _ _ => Returns secret;
     wixData_get := fun _ _ _ => Returns stored;
     wixData_update := fun _ _ _ => Returns tt;
     wixData_replaceReferences := fun _ _ f _ _ =>
       if String.eqb f field then Throws (Rejection "references failed")
       else Returns tt;
     mediaManager_importFile := fun _ _ url _ _ => Returns (import_result url);
     Date_now := fun _ => 0%Z |}.

(** A platform whose data store rejects every read. *)
Definition get_rejecting : platform :=
  {| getSecret := fun _ _ => Returns "secret1";
     wixData_get := fun _ _ _ => Throws (Rejection "get failed");
     wixData_update := fun _ _ _ => Returns tt;
     wixData_replaceReferences := fun _ _ _ _ _ => Returns tt;
     mediaManager_importFile := fun _ _ url _ _ => Returns (import_result url);
     Date_now := fun _ => 0%Z |}.

Definition error_log (text : string) : effect := Console ErrorLevel text.

(** An update entry that defers an operation, and the operation it defers. *)
Definition defers (entry : string * value) : bool :=
  startsWith entry.1 "refs_" && Array_isArray entry.2.

Definition deferred_operation (entry : string * value) : multiRefUpdate :=
  {| fieldName := string_drop 5 entry.1; ids := array_elements entry.2 |}.

(** ** The calls a handler may make *)

(** A computation that only adds to the history, and only calls of the
    allowed kind. *)
Definition only {A : Type} (allowed : effect -> bool) (m : M A) : Prop :=
  forall h, exists l, snd (m h) = h ++ l /\ Forall (fun e => allowed e = true) l.

(** The secrets manager, the console, and imports without a context. *)
Definition bulk_import_call (e : effect) : bool :=
  match e with
  | GetSecret _ | Console _ _ | ImportFile _ _ _ None => true
  | _ => false
  end.

(** The secrets manager, the console, and imports with a context. *)
Definition item_import_call (e : effect) : bool :=
  match e with
  | GetSecret _ | Console _ _ | ImportFile _ _ _ (Some _) => true
  | _ => false
  end.

(** The secrets manager, the console, and the data store. *)
Definition data_call (e : effect) : bool :=
  match e with
  | GetSecret _ | Console _ _ | WixDataGet _ _ | WixDataUpdate _ _
  | WixDataReplaceReferences _ _ _ _ => true
  | ImportFile _ _ _ _ => false
  end.

(** The console, and a read or an update of the data store. *)
Definition write_back_call (e : effect) : bool :=
  match e with
  | Console _ _ | WixDataGet _ _ | WixDataUpdate _ _ => true
  | _ => false
  end.

(** An update entry that [post_uploadImageToItem] acts on. *)
Definition image_key (entry : string * value) : bool := startsWith entry.1 "image_".

(** The context an import carries for a field of an item. *)
Definition field_context (collectionName itemId : value) (field : string) : importContext :=
  {| ctx_collectionName := ToString collectionName;
     ctx_itemId := ToString itemId;
     ctx_fieldName := field |}.

(** The event the media manager raises for an import with that context. *)
Definition upload_event (ctx : importContext) (url : string) : value :=
  VObj [ ("context", VObj [ ("collectionName", VStr (ctx_collectionName ctx));
                            ("itemId", VStr (ctx_itemId ctx));
                            ("fieldName", VStr (ctx_fieldName ctx)) ]);
         ("fileInfo", VObj [ ("fileUrl", VStr url) ]) ].

Definition failed_write_back : effect :=
  Console ErrorLevel "Failed to update image field on item:".

Definition event_with_empty_context : value :=
  VObj [ ("context", VObj []);
         ("fileInfo", VObj [ ("fileUrl", VStr "wix:image://v1/a.png") ]) ].

(** Updates with a plain key, a date, a boolean and two reference fields. *)
Definition full_updates : list (string * value) :=
  [ ("title", VStr "new title");
    ("date_due", VStr "2024-05-01");
    ("refs_tags", VArr [VStr "id2"; VStr "id1"]);
    ("safebool_done", VStr "1");
    ("refs_authors", VArr [VStr "a1"]) ].

(** * Properties *)

(** ** Strings *)

Lemma startsWith_app (p s : string) : startsWith (p +:+ s) p = true.
Proof.
  induction p as [|c p IH]; simpl; [done|].
  by rewrite Ascii.eqb_refl.
Qed.

Lemma string_drop_app (p s : string) : string_drop (String.length p) (p +:+ s) = s.
Proof. induction p as [|c p IH]; simpl; [by destruct s | done]. Qed.

Lemma replace_unfold (s p r : string) :
  replace s p r =
  if startsWith s p then r +:+ string_drop (String.length p) s
  else match s with
       | EmptyString => EmptyString
       | String c s' => String c (replace s' p r)
       end.
Proof. by destruct s. Qed.

(** Stripping a prefix: [(p + s).replace(p, "")] is [s]. *)
Lemma replace_prefix (p s : string) : replace (p +:+ s) p EmptyString = s.
Proof.
  rewrite replace_unfold, startsWith_app. simpl. apply string_drop_app.
Qed.

Lemma lower_ascii_idemp (c : ascii) : lower_ascii (lower_ascii c) = lower_ascii c.
Proof. destruct c as [[] [] [] [] [] [] [] []]; reflexivity. Qed.

Lemma toLowerCase_idemp (s : string) : toLowerCase (toLowerCase s) = toLowerCase s.
Proof.
  induction s as [|c s IH]; simpl; [done|].
  by rewrite lower_ascii_idemp, IH.
Qed.

Lemma split_no_separator (sep : ascii) (s : string) :
  (forall c, In c (list_ascii_of_string s) -> c <> sep) -> split sep s = [s].
Proof.
  induction s as [|c s IH]; simpl; intros Hs; [done|].
  destruct (Ascii.eqb_spec c sep) as [->|_].
  - exfalso. eapply Hs; [by left | done].
  - rewrite IH; [done|]. intros d Hd. apply Hs. by right.
Qed.

(** ** getMimeType *)

Lemma mime_lookup (ext : string) :
  toLowerCase ext = ext -> ext <> "constructor" -> ext <> "__proto__" ->
  js_or (read_property mime_map ext) (VStr "image/jpeg") = VStr (mime_of_extension ext).
Proof.
  intros Hlow Hc Hp.
  unfold read_property, mime_map, own_property, mime_of_extension.
  destruct (String.eqb "jpg" ext); [reflexivity|].
  destruct (String.eqb "jpeg" ext); [reflexivity|].
  destruct (String.eqb "png" ext); [reflexivity|].
  destruct (String.eqb "webp" ext); [reflexivity|].
  destruct (String.eqb "gif" ext); [reflexivity|].
  unfold Object_prototype.
  destruct (String.eqb_spec ext "constructor"); [done|].
  destruct (String.eqb_spec ext "__proto__"); [done|].
  repeat match goal with
         | |- context [String.eqb ext ?name] =>
             destruct (String.eqb_spec ext name) as [->|_]; [discriminate Hlow|]
         end.
  reflexivity.
Qed.

(** On a file name whose lower-cased extension is not a name inherited from
    [Object.prototype], [getMimeType] follows the table and defaults to
    [image/jpeg]. *)
Lemma getMimeType_by_extension (fileName : string) :
  let ext := toLowerCase (pop (split "." fileName)) in
  ext <> "constructor" -> ext <> "__proto__" ->
  getMimeType (VStr fileName) = Returns (VStr (mime_of_extension ext)).
Proof.
  intros ext Hc Hp. unfold getMimeType. simpl.
  f_equal. apply mime_lookup; [apply toLowerCase_idemp | done | done].
Qed.

(** Without a dot the whole name is the extension. *)
Lemma getMimeType_no_dot (fileName : string) :
  (forall c, In c (list_ascii_of_string fileName) -> c <> "."%char) ->
  toLowerCase (pop (split "." fileName)) = toLowerCase fileName.
Proof. intros H. by rewrite split_no_separator. Qed.

Example getMimeType_examples :
  getMimeType (VStr "a.png") = Returns (VStr "image/png")
  /\ getMimeType (VStr "photo.JPG") = Returns (VStr "image/jpeg")
  /\ getMimeType (VStr "b.jpeg") = Returns (VStr "image/jpeg")
  /\ getMimeType (VStr "c.webp") = Returns (VStr "image/webp")
  /\ getMimeType (VStr "d.gif") = Returns (VStr "image/gif")
  /\ getMimeType (VStr "noext") = Returns (VStr "image/jpeg")
  /\ getMimeType (VStr "archive.tar.bmp") = Returns (VStr "image/jpeg")
  /\ getMimeType (VStr EmptyString) = Returns (VStr "image/jpeg").
Proof. repeat split; reflexivity. Qed.

(** C7.  The comment of [getMimeType] promises "Default to JPEG if unknown",
    but the table is an object literal: for a file name with the extension
    [constructor] the lookup [map[ext]] finds the function inherited from
    [Object.prototype], which is truthy, and [getMimeType] returns it
    instead of [image/jpeg]. *)
Theorem getMimeType_inherited_extension :
  getMimeType (VStr "photo.constructor") = Returns (VNative "Object")
  /\ getMimeType (VStr "photo.constructor") <> Returns (VStr "image/jpeg")
  /\ mime_of_extension "constructor" = "image/jpeg".
Proof. split; [reflexivity | split; [discriminate | reflexivity]]. Qed.

(** ** isPermitted *)

Lemma isPermitted_eval (P : platform) (secretName : string)
    (hs : gmap string string) (h : trace) :
  isPermitted P secretName hs h =
  match getSecret P h secretName with
  | Returns secret =>
      (Returns (strict_eq (js_or (header hs "authorization") (header hs "auth"))
                          (VStr secret)),
       h ++ [GetSecret secretName])
  | Throws _ =>
      (Returns false,
       h ++ [GetSecret secretName; Console ErrorLevel "Error in authorization check:"])
  end.
Proof.
  unfold isPermitted, try_catch, call, console, mbind, M_bind, mret, M_ret.
  destruct (getSecret P h secretName); simpl; [done|].
  by rewrite <- app_assoc.
Qed.

Lemma strict_eq_string (a b : string) :
  strict_eq (VStr a) (VStr b) = bool_decide (Some a = Some b).
Proof.
  simpl. destruct (String.eqb_spec a b) as [->|Hne].
  - by rewrite bool_decide_eq_true_2.
  - rewrite bool_decide_eq_false_2; [done|]. by intros [= ->].
Qed.

Lemma compared_header (hs : gmap string string) (secret : string) :
  strict_eq (js_or (header hs "authorization") (header hs "auth")) (VStr secret)
  = bool_decide (header_value hs = Some secret).
Proof.
  unfold header, header_value, js_or.
  destruct (hs !! "authorization") as [a|]; simpl.
  - destruct (String.eqb a EmptyString); simpl; [|apply strict_eq_string].
    destruct (hs !! "auth") as [b|]; [apply strict_eq_string|].
    by rewrite bool_decide_eq_false_2.
  - destruct (hs !! "auth") as [b|]; [apply strict_eq_string|].
    by rewrite bool_decide_eq_false_2.
Qed.

(** C8, as the code has it.  [isPermitted] always returns a boolean: [true]
    exactly when the secret is retrieved and the header value, taken from
    [authorization] unless that header is absent or empty and from [auth]
    otherwise, is the very same string; [false] when the retrieval fails. *)
Theorem isPermitted_header_value (P : platform) (secretName : string)
    (hs : gmap string string) (h : trace) :
  fst (isPermitted P secretName hs h) =
  Returns (match getSecret P h secretName with
           | Returns secret => bool_decide (header_value hs = Some secret)
           | Throws _ => false
           end).
Proof.
  rewrite isPermitted_eval.
  destruct (getSecret P h secretName); simpl; [|done].
  by rewrite compared_header.
Qed.

(** C8, as the specification words it, fails: with an empty [authorization]
    header and [auth: "secret1"] the request is permitted, although the value
    of the [authorization] header, which is present, is not the secret. *)
Lemma isPermitted_empty_authorization_permitted :
  fst (run (isPermitted (reliable "secret1" None) "my_secret"
              empty_authorization_headers)) = Returns true
  /\ header_value_when_absent empty_authorization_headers = Some EmptyString
  /\ permitted_as_specified (reliable "secret1" None) "my_secret"
       empty_authorization_headers [] = false.
Proof. split; [|split]; reflexivity. Qed.

Example isPermitted_examples :
  fst (run (isPermitted (reliable "secret1" None) "my_secret" {[ "auth" := "secret1" ]}))
  = Returns true
  /\ fst (run (isPermitted (reliable "secret1" None) "my_secret" {[ "auth" := "Secret1" ]}))
    = Returns false
  /\ fst (run (isPermitted (reliable "secret1" None) "my_secret" ∅)) = Returns false
  /\ fst (run (isPermitted no_secret "my_secret" {[ "auth" := "secret1" ]}))
    = Returns false.
Proof. repeat split; reflexivity. Qed.

(** C10.  When [headers.authorization] is falsy, not only when it is absent,
    the [auth] header is the one compared: the request is permitted exactly
    when the secret is retrieved and the [auth] header is that very string,
    so a request with an empty [authorization] header and an [auth] header
    equal to the secret is permitted; and the answer and the calls are those
    of the request without the [authorization] header. *)
Theorem isPermitted_falsy_authorization (P : platform) (secretName : string)
    (hs : gmap string string) (h : trace) :
  truthy (header hs "authorization") = false ->
  fst (isPermitted P secretName hs h)
  = Returns (match getSecret P h secretName with
             | Returns secret => bool_decide (hs !! "auth" = Some secret)
             | Throws _ => false
             end)
  /\ isPermitted P secretName hs h
    = isPermitted P secretName (delete "authorization" hs) h.
Proof.
  intros Hfalsy.
  assert (forall secret,
             strict_eq (js_or (header hs "authorization") (header hs "auth")) (VStr secret)
             = bool_decide (hs !! "auth" = Some secret)) as Hcompared.
  { intros secret. unfold js_or. rewrite Hfalsy. unfold header.
    destruct (hs !! "auth") as [a|]; [apply strict_eq_string|].
    by rewrite bool_decide_eq_false_2. }
  assert (js_or (header (delete "authorization" hs) "authorization")
                (header (delete "authorization" hs) "auth")
          = js_or (header hs "authorization") (header hs "auth")) as Hdeleted.
  { unfold js_or at 2. rewrite Hfalsy. unfold js_or, header.
    rewrite lookup_delete_eq. cbn [truthy]. by rewrite lookup_delete_ne. }
  rewrite !isPermitted_eval. split.
  - destruct (getSecret P h secretName); [|done]. cbn [fst]. by rewrite Hcompared.
  - by rewrite Hdeleted.
Qed.

Lemma isPermitted_falsy_authorization_witness :
  truthy (header empty_authorization_headers "authorization") = false
  /\ fst (isPermitted (reliable "secret1" None) "my_secret"
            empty_authorization_headers []) = Returns true
  /\ fst (isPermitted (reliable "other" None) "my_secret"
            empty_authorization_headers []) = Returns false.
Proof.
  split; [reflexivity|]. split.
  - apply (isPermitted_falsy_authorization (reliable "secret1" None) "my_secret"
             empty_authorization_headers []); reflexivity.
  - apply (isPermitted_falsy_authorization (reliable "other" None) "my_secret"
             empty_authorization_headers []); reflexivity.
Defined.

(** ** The reducer of post_updateItemField *)

Arguments startsWith : simpl never.
Arguments replace : simpl never.

Lemma lookup_assign_ne (o : object) (k k' : string) (v : value) :
  k <> k' -> props (assign o k v) !! k' = props o !! k'.
Proof.
  intros Hne. unfold assign, define.
  destruct (String.eqb k "__proto__"); simpl; [|by rewrite lookup_insert_ne].
  destruct (props o !! k); simpl; [by rewrite lookup_insert_ne|].
  destruct (proto_accessor o); simpl; [|by rewrite lookup_insert_ne].
  by destruct (is_object_or_null v).
Qed.

Lemma lookup_assign_eq (o : object) (k : string) (v : value) :
  k <> "__proto__" -> props (assign o k v) !! k = Some v.
Proof.
  intros Hne. unfold assign, define.
  destruct (String.eqb_spec k "__proto__"); [done|].
  simpl. by rewrite lookup_insert_eq.
Qed.

(** The reducer, entry by entry: one assignment at most, one deferred
    operation at most. *)
Lemma reducer_eq (acc : object) (refs : list multiRefUpdate) (key : string) (v : value) :
  reducer (acc, refs) (key, v) =
  (match target key with
   | Some realKey => assign acc realKey (written key v)
   | None => acc
   end,
   refs ++ deferred (key, v)).
Proof.
  unfold reducer, target, written, deferred. simpl.
  destruct (startsWith key "date_"); simpl; [by rewrite app_nil_r|].
  destruct (startsWith key "refs_"); simpl.
  - destruct (Array_isArray v); simpl; [done | by rewrite app_nil_r].
  - destruct (startsWith key "safebool_"); simpl; by rewrite app_nil_r.
Qed.

Arguments reducer : simpl never.

Lemma reduce_from_refs (st : object * list multiRefUpdate) (entries : list (string * value)) :
  snd (foldl reducer st entries) = snd st ++ flat_map deferred entries.
Proof.
  revert st. induction entries as [|[key v] entries IH]; intros [acc refs]; simpl.
  - by rewrite app_nil_r.
  - rewrite IH, reducer_eq. simpl. by rewrite <- app_assoc.
Qed.

Lemma reduce_from_acc (acc : object) (refs refs' : list multiRefUpdate)
    (entries : list (string * value)) :
  fst (foldl reducer (acc, refs) entries) = fst (foldl reducer (acc, refs') entries).
Proof.
  revert acc refs refs'. induction entries as [|[key v] entries IH]; intros; simpl; [done|].
  rewrite !reducer_eq. apply IH.
Qed.

(** Entries that do not write a field leave it as it was. *)
Lemma reduce_lookup_untouched (st : object * list multiRefUpdate)
    (entries : list (string * value)) (k : string) :
  Forall (fun e => target e.1 <> Some k) entries ->
  props (fst (foldl reducer st entries)) !! k = props (fst st) !! k.
Proof.
  revert st. induction entries as [|[key v] entries IH]; intros [acc refs] Hall; [done|].
  inversion Hall as [|? ? Hhd Htl]; subst. simpl in *.
  rewrite IH by done. rewrite reducer_eq. simpl.
  destruct (target key) as [realKey|]; [|done].
  apply lookup_assign_ne. by intros ->.
Qed.

Lemma multiRefUpdates_deferred (entries : list (string * value)) :
  multiRefUpdates (VObj entries) = flat_map deferred entries.
Proof. unfold multiRefUpdates, reduce. simpl. by rewrite reduce_from_refs. Qed.

Lemma target_prefixed (prefix name : string) :
  prefix = "date_" \/ prefix = "safebool_" ->
  target (prefix +:+ name) = Some name.
Proof.
  intros [->| ->]; unfold target.
  - by rewrite startsWith_app, replace_prefix.
  - change (startsWith ("safebool_" +:+ name) "date_") with false.
    change (startsWith ("safebool_" +:+ name) "refs_") with false.
    by rewrite startsWith_app, replace_prefix.
Qed.

Lemma target_refs (name : string) : target ("refs_" +:+ name) = None.
Proof. reflexivity. Qed.

Lemma safebool_true_iff (v : value) :
  safebool v = true <->
  v = VBool true \/ v = VStr "true" \/ v = VNum 1 \/ v = VStr "1".
Proof.
  unfold safebool. split.
  - destruct v as [| |[]|n|s| | | |]; simpl; try discriminate; auto.
    + rewrite orb_false_r. intros ->%Z.eqb_eq. auto.
    + rewrite orb_false_r.
      intros [->%String.eqb_eq| ->%String.eqb_eq]%orb_true_iff; auto.
  - intros [->|[->|[->| ->]]]; reflexivity.
Qed.

Lemma startsWith_inv (s p : string) :
  startsWith s p = true -> s = p +:+ string_drop (String.length p) s.
Proof.
  revert s. induction p as [|c p IH]; intros s; [done|].
  destruct s as [|d s]; [done|]. unfold startsWith; fold startsWith.
  destruct (Ascii.eqb_spec c d) as [->|]; [|done].
  intros H.
  change (String d s = String d (p +:+ string_drop (String.length p) s)).
  f_equal. by apply IH.
Qed.

Lemma length_append (p s : string) :
  String.length (p +:+ s) = (String.length p + String.length s)%nat.
Proof. induction p as [|c p IH]; simpl; [done | by rewrite IH]. Qed.

Lemma prefixed_ne (c : ascii) (p name : string) : name <> String c p +:+ name.
Proof.
  intros H. apply (f_equal String.length) in H.
  rewrite length_append in H. simpl in H. lia.
Qed.

Lemma written_safebool (name : string) (v : value) :
  written ("safebool_" +:+ name) v = VBool (safebool v).
Proof.
  unfold written.
  change (startsWith ("safebool_" +:+ name) "date_") with false.
  by rewrite startsWith_app.
Qed.

(** C1, as the code has it.  For a key [safebool_<name>] with [<name>] other
    than [__proto__], and when no later entry of the updates writes the field
    [<name>], the merged record holds under [<name>] the boolean [true]
    exactly when the value is [true], ["true"], [1] or ["1"], and [false] for
    any other value.  The entry does not write the prefixed key: the merged
    record has it only if the existing record has it or another entry writes
    it. *)
Theorem safebool_coercion (existing : gmap string value)
    (pre post : list (string * value)) (name : string) (v : value) :
  name <> "__proto__" ->
  Forall (fun e => target e.1 <> Some name) post ->
  let key := "safebool_" +:+ name in
  let merged := updatedItem existing (VObj (pre ++ (key, v) :: post)) in
  (exists b : bool,
      merged !! name = Some (VBool b)
      /\ (b = true <->
          v = VBool true \/ v = VStr "true" \/ v = VNum 1 \/ v = VStr "1"))
  /\ (existing !! key = None ->
      Forall (fun e => target e.1 <> Some key) (pre ++ post) ->
      merged !! key = None).
Proof.
  intros Hname Hpost key merged. subst merged. unfold updatedItem, cleanedUpdates, reduce.
  cbn [Object_entries]. rewrite foldl_app. cbn [foldl].
  destruct (foldl reducer (empty_object, []) pre) as [acc refs] eqn:Hpre.
  split.
  - exists (safebool v). split; [|apply safebool_true_iff].
    apply lookup_union_Some_l.
    rewrite reduce_lookup_untouched by done.
    rewrite reducer_eq. subst key. rewrite target_prefixed by auto.
    cbn [fst]. rewrite lookup_assign_eq by done. by rewrite written_safebool.
  - intros Hexisting Hothers. apply Forall_app in Hothers as [Hpre' Hpost'].
    apply lookup_union_None. split; [|done].
    rewrite reduce_lookup_untouched by done.
    rewrite reducer_eq. subst key. rewrite target_prefixed by auto.
    cbn [fst]. rewrite lookup_assign_ne by apply prefixed_ne.
    change acc with (fst (acc, refs)). rewrite <- Hpre.
    by rewrite reduce_lookup_untouched.
Qed.

Lemma safebool_coercion_witness :
  "done" <> "__proto__"
  /\ exists b : bool,
      updatedItem ∅ (VObj ([("title", VStr "t")] ++ ("safebool_done", VStr "1")
                            :: [("date_due", VStr "2024-05-01")])) !! "done"
      = Some (VBool b)
      /\ (b = true <->
          VStr "1" = VBool true \/ VStr "1" = VStr "true"
          \/ VStr "1" = VNum 1 \/ VStr "1" = VStr "1").
Proof.
  split; [discriminate|].
  apply (safebool_coercion ∅ [("title", VStr "t")] [("date_due", VStr "2024-05-01")]
           "done" (VStr "1")).
  - discriminate.
  - repeat constructor. vm_compute. discriminate.
Defined.

(** C1, as the specification words it, fails: a later plain key [x] overwrites
    what [safebool_x] wrote, and a field of the existing record named
    [safebool_x] stays in the merged record. *)
Lemma safebool_overwritten_by_later_key :
  updatedItem record_with_prefixed_field (VObj colliding_updates) !! "x"
  = Some (VStr "no")
  /\ updatedItem record_with_prefixed_field (VObj colliding_updates) !! "safebool_x"
    = Some (VStr "old")
  /\ ~ safebool_as_specified record_with_prefixed_field colliding_updates.
Proof.
  split; [reflexivity|]. split; [reflexivity|].
  intros H. destruct (H "x" (VBool true)) as [Hx _]; [by left|].
  vm_compute in Hx. discriminate.
Qed.

Lemma target_of_refs (key : string) : startsWith key "refs_" = true -> target key = None.
Proof. intros H. by rewrite (startsWith_inv _ _ H). Qed.

Lemma cleanedUpdates_skip (pre post : list (string * value)) (key : string) (v : value) :
  target key = None ->
  cleanedUpdates (VObj (pre ++ (key, v) :: post)) = cleanedUpdates (VObj (pre ++ post)).
Proof.
  intros Ht. unfold cleanedUpdates, reduce. cbn [Object_entries].
  rewrite !foldl_app. cbn [foldl].
  destruct (foldl reducer (empty_object, []) pre) as [acc refs].
  rewrite reducer_eq, Ht. apply reduce_from_acc.
Qed.

(** C3, as the code has it.  A key with the prefix [refs_] never reaches the
    pass-through branch of the reducer: its entry assigns nothing, whatever
    its value, and the merged record is the one computed without the entry. *)
Theorem refs_intercepted (existing : gmap string value)
    (pre post : list (string * value)) (key : string) (v : value)
    (acc : object) (refs : list multiRefUpdate) :
  startsWith key "refs_" = true ->
  target key = None
  /\ fst (reducer (acc, refs) (key, v)) = acc
  /\ updatedItem existing (VObj (pre ++ (key, v) :: post))
    = updatedItem existing (VObj (pre ++ post)).
Proof.
  intros Hrefs. pose proof (target_of_refs key Hrefs) as Ht.
  split; [done|]. split.
  - by rewrite reducer_eq, Ht.
  - unfold updatedItem. by rewrite cleanedUpdates_skip.
Qed.

Lemma refs_intercepted_witness :
  startsWith "refs_tags" "refs_" = true
  /\ updatedItem ∅ (VObj ([("title", VStr "t")]
                          ++ ("refs_tags", VArr [VStr "id1"; VStr "id2"]) :: []))
    = updatedItem ∅ (VObj ([("title", VStr "t")] ++ [])).
Proof.
  split; [reflexivity|].
  apply (refs_intercepted ∅ [("title", VStr "t")] [] "refs_tags"
           (VArr [VStr "id1"; VStr "id2"]) empty_object []).
  reflexivity.
Defined.

(** C3, as the specification words it, fails for the prefix [image_]:
    [post_updateItemField] has no branch for it, and the raw URL is merged
    under the literal key. *)
Lemma image_key_passed_through :
  props (cleanedUpdates (VObj image_updates)) !! "image_photo"
  = Some (VStr "http://x/a.png")
  /\ updatedItem ∅ (VObj image_updates) !! "image_photo" = Some (VStr "http://x/a.png")
  /\ ~ intercepted_as_specified image_updates.
Proof.
  split; [reflexivity|]. split; [reflexivity|].
  intros H. apply (H "image_photo" (VStr "http://x/a.png")); [by left | by left | reflexivity].
Qed.

(** Every key with the prefix [image_] takes the pass-through branch. *)
Lemma image_key_assigned (acc : object) (refs : list multiRefUpdate)
    (name : string) (v : value) :
  reducer (acc, refs) ("image_" +:+ name, v) = (assign acc ("image_" +:+ name) v, refs).
Proof. rewrite reducer_eq. cbn. by rewrite app_nil_r. Qed.

(** ** post_updateItemField *)

Arguments updatedItem : simpl never.
Arguments multiRefUpdates : simpl never.
Arguments isPermitted : simpl never.

Lemma reducer_call_constructible (st : object * list multiRefUpdate)
    (entry : string * value) :
  date_constructible entry = true -> reducer_call st entry = Returns (reducer st entry).
Proof.
  unfold date_constructible, reducer_call, new_Date.
  destruct (startsWith entry.1 "date_"); [|done].
  by destruct (ToPrimitive_throws entry.2).
Qed.

Lemma reducer_call_returns (st st' : object * list multiRefUpdate)
    (entry : string * value) :
  reducer_call st entry = Returns st' -> st' = reducer st entry.
Proof.
  unfold reducer_call, new_Date.
  destruct (startsWith entry.1 "date_"); [|by intros [= <-]].
  destruct (ToPrimitive_throws entry.2); [done | by intros [= <-]].
Qed.

(** Where the reduction returns, it returns what [reducer] folds to. *)
Lemma reduce_call_returns (entries : list (string * value))
    (st st' : object * list multiRefUpdate) :
  reduce_call entries st = Returns st' -> st' = foldl reducer st entries.
Proof.
  revert st. induction entries as [|entry entries IH]; intros st; cbn [reduce_call foldl].
  - by intros [= <-].
  - destruct (reducer_call st entry) as [st1|err] eqn:Hstep; [|done].
    apply reducer_call_returns in Hstep as ->. apply IH.
Qed.

(** It returns when every [date_] value converts. *)
Lemma reduce_call_constructible (entries : list (string * value))
    (st : object * list multiRefUpdate) :
  forallb date_constructible entries = true ->
  reduce_call entries st = Returns (foldl reducer st entries).
Proof.
  revert st. induction entries as [|entry entries IH]; intros st; [done|].
  cbn [forallb reduce_call foldl]. intros [Hentry Hrest]%andb_true_iff.
  rewrite reducer_call_constructible by done. by apply IH.
Qed.

Lemma reduce_call_app (pre post : list (string * value))
    (st : object * list multiRefUpdate) :
  reduce_call (pre ++ post) st =
  match reduce_call pre st with
  | Returns st' => reduce_call post st'
  | Throws err => Throws err
  end.
Proof.
  revert st. induction pre as [|entry pre IH]; intros st; [done|].
  cbn [app reduce_call]. by destruct (reducer_call st entry).
Qed.

(** A [refs_] entry that defers nothing can be left out of the reduction. *)
Lemma reduce_call_skip (pre post : list (string * value)) (name : string) (v : value)
    (st : object * list multiRefUpdate) :
  deferred ("refs_" +:+ name, v) = [] ->
  reduce_call (pre ++ ("refs_" +:+ name, v) :: post) st = reduce_call (pre ++ post) st.
Proof.
  intros Hd. rewrite !reduce_call_app. destruct (reduce_call pre st) as [[acc refs]|err]; [|done].
  cbn [reduce_call]. unfold reducer_call. cbn [fst].
  change (startsWith ("refs_" +:+ name) "date_") with false. cbv iota.
  by rewrite reducer_eq, target_refs, Hd, app_nil_r.
Qed.

Lemma post_updateItemField_eval (P : platform) (hs : gmap string string)
    (c i u : value) (h : trace) :
  post_updateItemField P (update_request hs c i u) h =
  match isPermitted P "my_secret" hs h with
  | (Returns true, h1) =>
      if truthy c && truthy i && truthy u then
        match wixData_get P h1 c i with
        | Returns (Some existing) =>
            let item := updatedItem existing u in
            let h2 := h1 ++ [WixDataGet c i] in
            match reduce_call (Object_entries u) (empty_object, []) with
            | Throws err => caught "Error updating item:" err h2
            | Returns _ =>
                match wixData_update P h2 c item with
                | Returns _ =>
                    match replaceReferences_loop P c i (multiRefUpdates u)
                            (h2 ++ [WixDataUpdate c item]) with
                    | (Returns _, h3) => (Returns (ok body_success), h3)
                    | (Throws err, h3) => caught "Error updating item:" err h3
                    end
                | Throws err =>
                    caught "Error updating item:" err (h2 ++ [WixDataUpdate c item])
                end
            end
        | Returns None =>
            match ToString_call i with
            | Returns id =>
                match ToString_call c with
                | Returns collection =>
                    caught "Error updating item:" (item_not_found id collection)
                      (h1 ++ [WixDataGet c i])
                | Throws err => caught "Error updating item:" err (h1 ++ [WixDataGet c i])
                end
            | Throws err => caught "Error updating item:" err (h1 ++ [WixDataGet c i])
            end
        | Throws err => caught "Error updating item:" err (h1 ++ [WixDataGet c i])
        end
      else caught "Error updating item:" missing_fields h1
  | (Returns false, h1) => (Returns not_authorized, h1)
  | (Throws err, h1) => (Throws err, h1)
  end.
Proof.
  unfold post_updateItemField, update_request. cbn [headers body_json].
  unfold mbind at 1. unfold M_bind at 1.
  destruct (isPermitted P "my_secret" hs h) as [[[|]|err] h1]; cbn [negb]; [|done|done].
  unfold try_catch, mbind, M_bind, lift, throw, call, console, mret, M_ret, caught.
  cbn [property read_property own_property String.eqb Ascii.eqb Bool.eqb].
  destruct (truthy c), (truthy i), (truthy u); cbn [negb orb andb]; try done.
  destruct (wixData_get P h1 c i) as [[existing|]|err]; [| |done].
  - cbv zeta.
    destruct (reduce_call (Object_entries u) (empty_object, [])) as [reduced|err] eqn:Hr;
      [|done].
    apply reduce_call_returns in Hr as ->.
    change (foldl reducer (empty_object, []) (Object_entries u))
      with (reduce (Object_entries u)).
    change (props (reduce (Object_entries u)).1 ∪ existing) with (updatedItem existing u).
    change (reduce (Object_entries u)).2 with (multiRefUpdates u).
    destruct (wixData_update P (h1 ++ [WixDataGet c i]) c (updatedItem existing u)); [|done].
    by destruct (replaceReferences_loop P c i (multiRefUpdates u) _) as [[[]|err] h3].
  - destruct (ToString_call i); [|done]. by destruct (ToString_call c).
Qed.

Lemma isPermitted_true (P : platform) (secretName : string)
    (hs : gmap string string) (h : trace) :
  fst (isPermitted P secretName hs h) = Returns true ->
  isPermitted P secretName hs h = (Returns true, h ++ [GetSecret secretName]).
Proof.
  rewrite isPermitted_eval.
  destruct (getSecret P h secretName); cbn [fst]; [|done].
  by intros [= ->].
Qed.

Lemma replaceReferences_loop_reliable (P : platform) (c i : value)
    (refs : list multiRefUpdate) (h : trace) :
  (forall h' f l, wixData_replaceReferences P h' c f i l = Returns tt) ->
  replaceReferences_loop P c i refs h = (Returns tt, h ++ map (replace_call c i) refs).
Proof.
  intros Hok. revert h. induction refs as [|ref refs IH]; intros h.
  - cbn. by rewrite app_nil_r.
  - cbn [replaceReferences_loop map]. unfold mbind, M_bind, call.
    cbn beta. rewrite Hok. cbn iota. rewrite IH. by rewrite <- app_assoc.
Qed.

Lemma deferred_refs_array (name : string) (l : list value) :
  deferred ("refs_" +:+ name, VArr l) = [ {| fieldName := name; ids := l |} ].
Proof.
  unfold deferred. cbn [fst snd Array_isArray array_elements].
  change (startsWith ("refs_" +:+ name) "date_") with false.
  by rewrite startsWith_app, replace_prefix.
Qed.

Lemma merged_without_writer (existing : gmap string value)
    (entries : list (string * value)) (k : string) :
  existing !! k = None ->
  Forall (fun e => target e.1 <> Some k) entries ->
  updatedItem existing (VObj entries) !! k = None.
Proof.
  intros Hexisting Hentries. unfold updatedItem, cleanedUpdates, reduce.
  apply lookup_union_None. split; [|done].
  cbn [Object_entries]. by rewrite reduce_lookup_untouched.
Qed.

(** C2.  For a key [refs_<k>] whose value is an array, on a request that is
    authorised, names the collection and the item, finds the item, whose
    [date_] values all convert in [new Date], and whose writes the platform
    accepts: the record persisted is the one merged without that entry, so
    it has no field [<k>] unless the existing record or another entry
    provides one, and after that update, in the order of the updates,
    [replaceReferences] is called for the field [<k>] with the very list of
    identifiers given. *)
Theorem refs_array_deferred (P : platform) (hs : gmap string string) (c i : value)
    (pre post : list (string * value)) (k : string) (l : list value)
    (existing : gmap string value) :
  fst (isPermitted P "my_secret" hs []) = Returns true ->
  truthy c = true -> truthy i = true ->
  forallb date_constructible (pre ++ post) = true ->
  (forall h, wixData_get P h c i = Returns (Some existing)) ->
  (forall h item, wixData_update P h c item = Returns tt) ->
  (forall h f l', wixData_replaceReferences P h c f i l' = Returns tt) ->
  let merged := updatedItem existing (VObj (pre ++ post)) in
  run (post_updateItemField P
         (update_request hs c i (VObj (pre ++ ("refs_" +:+ k, VArr l) :: post))))
  = (Returns (ok body_success),
     [GetSecret "my_secret"; WixDataGet c i; WixDataUpdate c merged]
     ++ map (replace_call c i) (multiRefUpdates (VObj pre))
     ++ WixDataReplaceReferences c k i l
        :: map (replace_call c i) (multiRefUpdates (VObj post)))
  /\ (existing !! k = None ->
      Forall (fun e => target e.1 <> Some k) (pre ++ post) ->
      merged !! k = None).
Proof.
  intros Hauth Hc Hi Hdates Hget Hupdate Hreplace merged. subst merged.
  split; [|apply merged_without_writer].
  assert (forallb date_constructible (pre ++ ("refs_" +:+ k, VArr l) :: post) = true)
    as Hall.
  { rewrite forallb_app in *. apply andb_true_iff in Hdates as [-> Hpost].
    cbn [forallb andb]. by rewrite Hpost. }
  unfold run. rewrite post_updateItemField_eval, (isPermitted_true _ _ _ _ Hauth).
  rewrite Hc, Hi. cbn [truthy andb]. rewrite Hget. cbv zeta.
  cbn [Object_entries]. rewrite (reduce_call_constructible _ _ Hall). rewrite Hupdate.
  rewrite replaceReferences_loop_reliable by done.
  unfold updatedItem. rewrite cleanedUpdates_skip by apply target_refs.
  rewrite !multiRefUpdates_deferred, flat_map_app. cbn [flat_map].
  rewrite deferred_refs_array, map_app. cbn [map app replace_call fieldName ids].
  reflexivity.
Qed.

Lemma refs_array_deferred_witness :
  fst (isPermitted (reliable "secret1" (Some stored_item)) "my_secret" auth_headers [])
  = Returns true
  /\ run (post_updateItemField (reliable "secret1" (Some stored_item))
            (update_request auth_headers (VStr "Books") (VStr "item1")
               (VObj ([("title", VStr "new title"); ("date_due", VStr "2024-05-01")]
                      ++ ("refs_" +:+ "tags", VArr [VStr "id2"; VStr "id1"])
                      :: [("refs_authors", VArr [VStr "a1"])]))))
    = (Returns (ok body_success),
       [GetSecret "my_secret"; WixDataGet (VStr "Books") (VStr "item1");
        WixDataUpdate (VStr "Books")
          (updatedItem stored_item
             (VObj ([("title", VStr "new title"); ("date_due", VStr "2024-05-01")]
                    ++ [("refs_authors", VArr [VStr "a1"])])))]
       ++ map (replace_call (VStr "Books") (VStr "item1"))
              (multiRefUpdates (VObj [("title", VStr "new title");
                                      ("date_due", VStr "2024-05-01")]))
       ++ WixDataReplaceReferences (VStr "Books") "tags" (VStr "item1")
            [VStr "id2"; VStr "id1"]
          :: map (replace_call (VStr "Books") (VStr "item1"))
                 (multiRefUpdates (VObj [("refs_authors", VArr [VStr "a1"])]))).
Proof.
  split; [reflexivity|].
  apply (refs_array_deferred (reliable "secret1" (Some stored_item)) auth_headers
           (VStr "Books") (VStr "item1")
           [("title", VStr "new title"); ("date_due", VStr "2024-05-01")]
           [("refs_authors", VArr [VStr "a1"])] "tags" [VStr "id2"; VStr "id1"]
           stored_item); reflexivity.
Defined.

(** C9.  A key [refs_<k>] whose value is not an array is dropped: the reducer
    leaves the accumulator and the deferred operations as they were, so
    nothing is merged under [refs_<k>] or [<k>] and nothing is deferred, and
    the handler answers and acts exactly as on the request without that
    entry, hence with no error of its own. *)
Theorem refs_non_array_dropped (P : platform) (hs : gmap string string) (c i : value)
    (pre post : list (string * value)) (name : string) (v : value) (h : trace) :
  Array_isArray v = false ->
  (forall st, reducer st ("refs_" +:+ name, v) = st)
  /\ post_updateItemField P
       (update_request hs c i (VObj (pre ++ ("refs_" +:+ name, v) :: post))) h
    = post_updateItemField P (update_request hs c i (VObj (pre ++ post))) h.
Proof.
  intros Harr.
  assert (deferred ("refs_" +:+ name, v) = []) as Hd.
  { unfold deferred. cbn [fst snd]. by rewrite Harr, andb_false_r. }
  split.
  - intros [acc refs]. by rewrite reducer_eq, target_refs, Hd, app_nil_r.
  - rewrite !post_updateItemField_eval. unfold updatedItem. cbn [Object_entries].
    rewrite reduce_call_skip by done.
    rewrite cleanedUpdates_skip by apply target_refs.
    rewrite !multiRefUpdates_deferred, !flat_map_app. cbn [flat_map].
    by rewrite Hd.
Qed.

Lemma refs_non_array_dropped_witness :
  Array_isArray (VStr "id1") = false
  /\ run (post_updateItemField (reliable "secret1" (Some stored_item))
            (update_request auth_headers (VStr "Books") (VStr "item1")
               (VObj ([("title", VStr "t")] ++ ("refs_" +:+ "tags", VStr "id1") :: []))))
    = run (post_updateItemField (reliable "secret1" (Some stored_item))
             (update_request auth_headers (VStr "Books") (VStr "item1")
                (VObj ([("title", VStr "t")] ++ [])))).
Proof.
  split; [reflexivity|].
  apply (refs_non_array_dropped (reliable "secret1" (Some stored_item)) auth_headers
           (VStr "Books") (VStr "item1") [("title", VStr "t")] [] "tags" (VStr "id1") []).
  reflexivity.
Defined.

Example refs_non_array_dropped_run :
  run (post_updateItemField (reliable "secret1" (Some stored_item))
         (update_request auth_headers (VStr "Books") (VStr "item1")
            (VObj [("refs_tags", VStr "id1")])))
  = (Returns (ok body_success),
     [GetSecret "my_secret"; WixDataGet (VStr "Books") (VStr "item1");
      WixDataUpdate (VStr "Books") stored_item]).
Proof. vm_compute. reflexivity. Qed.

(** ** post_imageBulkUploader *)

Arguments upload_image : simpl never.

Lemma upload_loop_app (P : platform) (f : value) (pre post : list value)
    (rs : list uploadResult) (h : trace) :
  upload_loop P f (pre ++ post) rs h =
  match upload_loop P f pre rs h with
  | (Returns rs', h') => upload_loop P f post rs' h'
  | (Throws err, h') => (Throws err, h')
  end.
Proof.
  revert rs h. induction pre as [|image pre IH]; intros rs h; [done|].
  cbn [app upload_loop]. unfold mbind, M_bind.
  destruct (upload_image P f image h) as [[pushed|err] h']; [apply IH | done].
Qed.

Lemma post_imageBulkUploader_eval (P : platform) (hs : gmap string string)
    (f images : value) (h : trace) :
  post_imageBulkUploader P (bulk_request hs f images) h =
  match isPermitted P "my_secret" hs h with
  | (Returns true, h1) =>
      if truthy f && Array_isArray images then
        match upload_loop P f (array_elements images) [] h1 with
        | (Returns rs, h2) => (Returns (ok (body_uploaded rs)), h2)
        | (Throws err, h2) => caught "Image upload error:" err h2
        end
      else caught "Image upload error:" invalid_bulk_body h1
  | (Returns false, h1) => (Returns not_authorized, h1)
  | (Throws err, h1) => (Throws err, h1)
  end.
Proof.
  unfold post_imageBulkUploader, bulk_request. cbn [headers body_json].
  unfold mbind at 1. unfold M_bind at 1.
  destruct (isPermitted P "my_secret" hs h) as [[[|]|err] h1]; cbn [negb]; [|done|done].
  unfold try_catch, mbind, M_bind, lift, throw, console, mret, M_ret, caught.
  cbn [property read_property own_property String.eqb Ascii.eqb Bool.eqb].
  destruct (truthy f), (Array_isArray images); cbn [negb orb andb]; try done.
  by destruct (upload_loop P f (array_elements images) [] h1) as [[rs|err] h2].
Qed.

(** C5.  When an entry of the batch fails, the entries before it having been
    processed, the handler answers with the single error response built from
    that failure: the results collected so far are not in it, the trace ends
    with the failing entry and the log of the error, and the entries after
    it play no part, the outcome being the one of the batch cut after the
    failing entry. *)
Theorem bulk_failure_aborts (P : platform) (hs : gmap string string) (f : value)
    (pre post : list value) (image : value) (results : list uploadResult)
    (h1 h2 : trace) (err : exn) :
  fst (isPermitted P "my_secret" hs []) = Returns true ->
  truthy f = true ->
  upload_loop P f pre [] [GetSecret "my_secret"] = (Returns results, h1) ->
  upload_image P f image h1 = (Throws err, h2) ->
  run (post_imageBulkUploader P (bulk_request hs f (VArr (pre ++ image :: post))))
  = (Returns (badRequest (body_error (message err))),
     h2 ++ [Console ErrorLevel "Image upload error:"])
  /\ run (post_imageBulkUploader P (bulk_request hs f (VArr (pre ++ image :: post))))
    = run (post_imageBulkUploader P (bulk_request hs f (VArr (pre ++ [image])))).
Proof.
  intros Hauth Hf Hpre Himage.
  assert (forall rest,
             run (post_imageBulkUploader P (bulk_request hs f (VArr (pre ++ image :: rest))))
             = (Returns (badRequest (body_error (message err))),
                h2 ++ [Console ErrorLevel "Image upload error:"])) as Hcut.
  { intros rest. unfold run.
    rewrite post_imageBulkUploader_eval, (isPermitted_true _ _ _ _ Hauth), Hf.
    cbn [Array_isArray andb array_elements app].
    rewrite upload_loop_app, Hpre. cbn [upload_loop]. unfold mbind, M_bind.
    by rewrite Himage. }
  split; [apply Hcut | by rewrite !Hcut].
Qed.

Lemma bulk_failure_aborts_witness :
  upload_image (rejecting "secret1" "http://x/bad.png") (VStr "f") image_bad
    [GetSecret "my_secret";
     ImportFile "/f" (VStr "http://x/a.png") (VStr "image/png") None]
  = (Throws (Rejection "import failed"),
     [GetSecret "my_secret";
      ImportFile "/f" (VStr "http://x/a.png") (VStr "image/png") None;
      ImportFile "/f" (VStr "http://x/bad.png") (VStr "image/png") None])
  /\ run (post_imageBulkUploader (rejecting "secret1" "http://x/bad.png")
            (bulk_request auth_headers (VStr "f")
               (VArr ([image_a] ++ image_bad :: [image_b]))))
    = (Returns (badRequest (body_error "import failed")),
       [GetSecret "my_secret";
        ImportFile "/f" (VStr "http://x/a.png") (VStr "image/png") None;
        ImportFile "/f" (VStr "http://x/bad.png") (VStr "image/png") None]
       ++ [Console ErrorLevel "Image upload error:"]).
Proof.
  split; [reflexivity|].
  apply (bulk_failure_aborts (rejecting "secret1" "http://x/bad.png") auth_headers
           (VStr "f") [image_a] [image_b] image_bad
           [ {| originalUrl := VStr "http://x/a.png";
                fileUrl := VStr "wix:image://v1/http://x/a.png";
                fileName := VStr "stored"; mediaId := VStr "m1" |} ]
           [GetSecret "my_secret";
            ImportFile "/f" (VStr "http://x/a.png") (VStr "image/png") None]
           [GetSecret "my_secret";
            ImportFile "/f" (VStr "http://x/a.png") (VStr "image/png") None;
            ImportFile "/f" (VStr "http://x/bad.png") (VStr "image/png") None]
           (Rejection "import failed")); reflexivity.
Defined.

Lemma property_not_nullish (v : value) (k : string) :
  nullish v = false -> property v k = Returns (optional_property v k).
Proof. unfold optional_property. by destruct v. Qed.

(** An entry without a [publicUrl] is skipped: a warning, no result, no
    error. *)
Lemma upload_image_skip (P : platform) (f image : value) (h : trace) :
  nullish image = false -> has_publicUrl image = false ->
  upload_image P f image h = (Returns None, h ++ [skipped_image]).
Proof.
  intros Hnn Hurl. unfold upload_image, mbind, M_bind, lift, console, mret, M_ret.
  rewrite !property_not_nullish by done.
  unfold has_publicUrl, publicUrl_of in Hurl. by rewrite Hurl.
Qed.

(** An entry that is processed without failure is skipped when it has no
    [publicUrl] and pushes one result for its [publicUrl] otherwise. *)
Lemma upload_image_returns (P : platform) (f image : value) (h h' : trace)
    (pushed : option uploadResult) :
  nullish image = false ->
  upload_image P f image h = (Returns pushed, h') ->
  match pushed with
  | None => has_publicUrl image = false
  | Some r => has_publicUrl image = true /\ originalUrl r = publicUrl_of image
  end.
Proof.
  intros Hnn. unfold upload_image, mbind, M_bind, lift, console, call, mret, M_ret.
  rewrite !property_not_nullish by done.
  unfold has_publicUrl, publicUrl_of.
  destruct (truthy (optional_property image "publicUrl")); cbn [negb].
  - repeat match goal with
           | |- context [match ?x with _ => _ end] =>
               match type of x with
               | prod _ _ => destruct x as [[?|?] ?] eqn:?
               | outcome _ => destruct x as [?|?] eqn:?
               end
           end; try discriminate.
    by intros [= <- <-].
  - by intros [= <- <-].
Qed.

Lemma upload_loop_ok (P : platform) (f : value) (images : list value) :
  Forall (fun image => nullish image = false) images ->
  Forall (fun image => has_publicUrl image = true ->
                       forall h, exists pushed h',
                         upload_image P f image h = (Returns pushed, h')) images ->
  forall rs h, exists rs' h',
    upload_loop P f images rs h = (Returns (rs ++ rs'), h')
    /\ map originalUrl rs' = map publicUrl_of (List.filter has_publicUrl images).
Proof.
  induction images as [|image images IH]; intros Hnn Hok rs h.
  - exists [], h. by rewrite app_nil_r.
  - inversion Hnn as [|? ? Hnn1 Hnn2]; inversion Hok as [|? ? Hok1 Hok2]; subst.
    cbn [upload_loop List.filter]. unfold mbind, M_bind.
    destruct (has_publicUrl image) eqn:Hurl.
    + destruct (Hok1 eq_refl h) as (pushed & h1 & Hrun). rewrite Hrun.
      pose proof (upload_image_returns _ _ _ _ _ _ Hnn1 Hrun) as Hpushed.
      destruct pushed as [r|]; [|congruence]. destruct Hpushed as [_ Hr].
      destruct (IH Hnn2 Hok2 (rs ++ [r]) h1) as (rs' & h' & Hloop & Hmap).
      exists (r :: rs'), h'. rewrite Hloop, <- app_assoc. cbn [map app].
      by rewrite Hr, Hmap.
    + rewrite upload_image_skip by done.
      destruct (IH Hnn2 Hok2 rs (h ++ [skipped_image])) as (rs' & h' & Hloop & Hmap).
      by exists rs', h'.
Qed.

(** C6.  On an authorised request with a folder name, whose entries are
    objects and none of whose entries with a [publicUrl] fails: an entry
    without a [publicUrl] only logs a warning and the loop goes on, and the
    handler answers [ok] with an [uploaded] array that has exactly one result
    per entry with a [publicUrl], in the order of the input. *)
Theorem bulk_skips_missing_url (P : platform) (hs : gmap string string) (f : value)
    (images : list value) :
  fst (isPermitted P "my_secret" hs []) = Returns true ->
  truthy f = true ->
  Forall (fun image => nullish image = false) images ->
  Forall (fun image => has_publicUrl image = true ->
                       forall h, exists pushed h',
                         upload_image P f image h = (Returns pushed, h')) images ->
  Forall (fun image => has_publicUrl image = false ->
                       forall h, upload_image P f image h
                                 = (Returns None, h ++ [skipped_image])) images
  /\ exists uploaded h',
      run (post_imageBulkUploader P (bulk_request hs f (VArr images)))
      = (Returns (ok (body_uploaded uploaded)), h')
      /\ map originalUrl uploaded = map publicUrl_of (List.filter has_publicUrl images)
      /\ length uploaded = length (List.filter has_publicUrl images).
Proof.
  intros Hauth Hf Hnn Hok. split.
  - apply Forall_forall. intros image Hin Hurl h.
    apply upload_image_skip; [|done].
    by apply (proj1 (Forall_forall _ _) Hnn).
  - destruct (upload_loop_ok P f images Hnn Hok [] [GetSecret "my_secret"])
      as (rs & h' & Hloop & Hmap).
    exists rs, h'. split; [|split; [done|]].
    + unfold run.
      rewrite post_imageBulkUploader_eval, (isPermitted_true _ _ _ _ Hauth), Hf.
      cbn [Array_isArray andb array_elements app]. by rewrite Hloop.
    + by rewrite <- (length_map originalUrl), Hmap, length_map.
Qed.

Lemma bulk_skips_missing_url_witness :
  fst (isPermitted (reliable "secret1" None) "my_secret" auth_headers []) = Returns true
  /\ exists uploaded h',
      run (post_imageBulkUploader (reliable "secret1" None)
             (bulk_request auth_headers (VStr "f") (VArr [image_without_url; image_b])))
      = (Returns (ok (body_uploaded uploaded)), h')
      /\ map originalUrl uploaded
        = map publicUrl_of (List.filter has_publicUrl [image_without_url; image_b])
      /\ length uploaded = length (List.filter has_publicUrl [image_without_url; image_b]).
Proof.
  split; [reflexivity|].
  apply (bulk_skips_missing_url (reliable "secret1" None) auth_headers (VStr "f")
           [image_without_url; image_b]).
  - reflexivity.
  - reflexivity.
  - repeat constructor.
  - repeat constructor.
    + discriminate.
    + intros _ h. eexists _, _. reflexivity.
Defined.

(** The example of the specification: the entry with a [null] URL leaves no
    trace but a warning, and [uploaded] has the one entry for [b.jpg]. *)
Example bulk_skip_example :
  run (post_imageBulkUploader (reliable "secret1" None)
         (bulk_request auth_headers (VStr "f") (VArr [image_without_url; image_b])))
  = (Returns (ok (body_uploaded
       [ {| originalUrl := VStr "http://x/b.jpg";
            fileUrl := VStr "wix:image://v1/http://x/b.jpg";
            fileName := VStr "stored"; mediaId := VStr "m1" |} ])),
     [GetSecret "my_secret"; skipped_image;
      ImportFile "/f" (VStr "http://x/b.jpg") (VStr "image/jpeg") None]).
Proof. reflexivity. Qed.

(** A [null] entry is not skipped: reading its properties throws, and the
    batch fails. *)
Example bulk_null_entry :
  run (post_imageBulkUploader (reliable "secret1" None)
         (bulk_request auth_headers (VStr "f") (VArr [VNull; image_b])))
  = (Returns (badRequest (body_error "Cannot read properties of null")),
     [GetSecret "my_secret"; Console ErrorLevel "Image upload error:"]).
Proof. reflexivity. Qed.

(** ** wixMediaManager_onFileUploaded *)

Arguments write_back : simpl never.

(** The handler of [uploadImageToItem.js]: unless the three fields of the
    context and the file URL are all there, it logs and does nothing else. *)
Lemma onFileUploaded_guard (P : platform) (event context fileInfo : value) (h : trace) :
  property event "context" = Returns context ->
  property event "fileInfo" = Returns fileInfo ->
  wixMediaManager_onFileUploaded P event h =
  if upload_complete context fileInfo
  then write_back P (optional_property context "collectionName")
         (optional_property context "itemId") (optional_property context "fieldName")
         fileInfo h
  else (Returns tt, h ++ [skipped_upload]).
Proof.
  intros Hc Hf. unfold wixMediaManager_onFileUploaded, mbind, M_bind, lift.
  rewrite Hc, Hf. fold (upload_complete context fileInfo).
  destruct (upload_complete context fileInfo) eqn:Hg; [|done].
  assert (nullish context = false) as Hnn by (by destruct context).
  by rewrite !property_not_nullish.
Qed.

Lemma onFileUploaded_missing (P : platform) (event context fileInfo : value) (h : trace) :
  property event "context" = Returns context ->
  property event "fileInfo" = Returns fileInfo ->
  nullish context = true
  \/ truthy (optional_property context "collectionName") = false
  \/ truthy (optional_property context "itemId") = false
  \/ truthy (optional_property context "fieldName") = false
  \/ truthy (optional_property fileInfo "fileUrl") = false ->
  wixMediaManager_onFileUploaded P event h = (Returns tt, h ++ [skipped_upload]).
Proof.
  intros Hc Hf Hmissing. rewrite (onFileUploaded_guard _ _ _ _ _ Hc Hf).
  assert (upload_complete context fileInfo = false) as ->; [|done].
  unfold upload_complete.
  destruct Hmissing as [Hn|[H|[H|[H|H]]]].
  - by destruct context.
  - by rewrite H.
  - by rewrite H, andb_false_r.
  - by rewrite H, andb_false_r.
  - by rewrite H, andb_false_r.
Qed.

(** C4.  The older copy of the handler destructures the context before its
    guard: on an event without a context it throws a [TypeError] and logs
    nothing, where the handler of [uploadImageToItem.js] logs that the upload
    is skipped.  Neither of them fetches or writes a record. *)
Theorem older_onFileUploaded_throws_without_context (P : platform) (h : trace) :
  OlderCopy.wixMediaManager_onFileUploaded P event_without_context h
  = (Throws (TypeError "Cannot read properties of undefined"), h)
  /\ wixMediaManager_onFileUploaded P event_without_context h
    = (Returns tt, h ++ [skipped_upload]).
Proof. split; reflexivity. Qed.

(** With its context and file URL an upload is written back: the record is
    fetched, the field set to the URL, and the record persisted. *)
Example onFileUploaded_complete :
  run (wixMediaManager_onFileUploaded (reliable "secret1" (Some stored_item)) complete_event)
  = (Returns tt,
     [WixDataGet (VStr "Books") (VStr "item1");
      Console LogLevel "fileInfo";
      WixDataUpdate (VStr "Books")
        (<["cover" := VStr "wix:image://v1/a.png"]> stored_item);
      Console LogLevel ("Image field " +:+ quoted "cover"
                        +:+ " updated for item item1 in Books")])
  /\ run (OlderCopy.wixMediaManager_onFileUploaded
            (reliable "secret1" (Some stored_item)) complete_event)
    = run (wixMediaManager_onFileUploaded (reliable "secret1" (Some stored_item))
             complete_event).
Proof. split; reflexivity. Qed.

(** ** post_uploadImageToItem *)

(** Keys with the prefix [image_] are intercepted by [post_uploadImageToItem]:
    the URL is imported with the context of the field, and nothing is merged
    into a record. *)
Example uploadImageToItem_example :
  run (post_uploadImageToItem (reliable "secret1" None)
         (update_request auth_headers (VStr "Books") (VStr "item1")
            (VObj [ ("image_cover", VStr "http://x/a.png"); ("title", VStr "t") ])))
  = (Returns (ok body_success),
     [GetSecret "make_connector";
      ImportFile "/Books" (VStr "http://x/a.png") (VStr "image/png")
        (Some {| ctx_collectionName := "Books"; ctx_itemId := "item1";
                 ctx_fieldName := "cover" |});
      Console LogLevel "importResult"]).
Proof. reflexivity. Qed.

(** * Further properties of the handlers *)

(** ** Authorization and exceptions *)

Lemma isPermitted_returns (P : platform) (secretName : string)
    (hs : gmap string string) (h : trace) :
  exists b h', isPermitted P secretName hs h = (Returns b, h').
Proof. rewrite isPermitted_eval. destruct (getSecret P h secretName); eauto. Qed.

Lemma isPermitted_false (P : platform) (secretName : string)
    (hs : gmap string string) (h : trace) :
  fst (isPermitted P secretName hs h) = Returns false ->
  isPermitted P secretName hs h = (Returns false, snd (isPermitted P secretName hs h)).
Proof. destruct (isPermitted P secretName hs h) as [o h']. cbn. by intros ->. Qed.

(** X1.  A request that [isPermitted] refuses gets the answer
    [Not authorized] from each of the three POST handlers, and nothing is
    done beyond the authorization check: the body is not even parsed. *)
Theorem unauthorized_rejected (P : platform) (req : request) (h : trace) :
  fst (isPermitted P "my_secret" (headers req) h) = Returns false ->
  fst (isPermitted P "make_connector" (headers req) h) = Returns false ->
  post_updateItemField P req h
  = (Returns not_authorized, snd (isPermitted P "my_secret" (headers req) h))
  /\ post_imageBulkUploader P req h
    = (Returns not_authorized, snd (isPermitted P "my_secret" (headers req) h))
  /\ post_uploadImageToItem P req h
    = (Returns not_authorized, snd (isPermitted P "make_connector" (headers req) h)).
Proof.
  intros H1 H2. split; [|split].
  - unfold post_updateItemField. unfold mbind at 1. unfold M_bind at 1.
    by rewrite (isPermitted_false _ _ _ _ H1).
  - unfold post_imageBulkUploader. unfold mbind at 1. unfold M_bind at 1.
    by rewrite (isPermitted_false _ _ _ _ H1).
  - unfold post_uploadImageToItem. unfold mbind at 1. unfold M_bind at 1.
    by rewrite (isPermitted_false _ _ _ _ H2).
Qed.

Lemma unauthorized_rejected_witness :
  fst (isPermitted no_secret "my_secret" auth_headers []) = Returns false
  /\ post_updateItemField no_secret
       (update_request auth_headers (VStr "Books") (VStr "item1") (VObj [])) []
    = (Returns not_authorized,
       [GetSecret "my_secret"; error_log "Error in authorization check:"]).
Proof.
  split; [reflexivity|].
  apply (unauthorized_rejected no_secret
           (update_request auth_headers (VStr "Books") (VStr "item1") (VObj [])) []);
    reflexivity.
Defined.

Lemma try_catch_returns {A : Type} (m : M A) (handler : exn -> M A) (h : trace) :
  (forall err h1, exists a h2, handler err h1 = (Returns a, h2)) ->
  exists a h', try_catch m handler h = (Returns a, h').
Proof.
  intros Hhandler. unfold try_catch.
  destruct (m h) as [[a|err] h1]; [eauto | apply Hhandler].
Qed.

(** X2.  None of the three POST handlers lets an exception escape: whatever
    the request and whatever the platform answers, each returns a
    response. *)
Theorem handlers_never_throw (P : platform) (req : request) (h : trace) :
  (exists r h', post_updateItemField P req h = (Returns r, h'))
  /\ (exists r h', post_imageBulkUploader P req h = (Returns r, h'))
  /\ (exists r h', post_uploadImageToItem P req h = (Returns r, h')).
Proof.
  split; [|split].
  - unfold post_updateItemField. unfold mbind at 1. unfold M_bind at 1.
    destruct (isPermitted_returns P "my_secret" (headers req) h) as ([|] & h1 & ->);
      cbn [negb]; [|by eexists _, _].
    apply try_catch_returns. intros err h2. by eexists _, _.
  - unfold post_imageBulkUploader. unfold mbind at 1. unfold M_bind at 1.
    destruct (isPermitted_returns P "my_secret" (headers req) h) as ([|] & h1 & ->);
      cbn [negb]; [|by eexists _, _].
    apply try_catch_returns. intros err h2. by eexists _, _.
  - unfold post_uploadImageToItem. unfold mbind at 1. unfold M_bind at 1.
    destruct (isPermitted_returns P "make_connector" (headers req) h) as ([|] & h1 & ->);
      cbn [negb]; [|by eexists _, _].
    apply try_catch_returns. intros err h2. by eexists _, _.
Qed.

(** ** Bodies *)

(** Whatever else the body holds, only the three fields are read. *)
Lemma post_updateItemField_fields (P : platform) (req : request)
    (fields : list (string * value)) (h : trace) :
  body_json req = Returns (VObj fields) ->
  post_updateItemField P req h
  = post_updateItemField P
      (update_request (headers req) (read_property fields "collectionName")
         (read_property fields "itemId") (read_property fields "updates")) h.
Proof.
  intros Hbody. unfold post_updateItemField, update_request. cbn [headers body_json].
  rewrite Hbody. unfold try_catch, mbind, M_bind, lift.
  destruct (isPermitted P "my_secret" (headers req) h) as [[[|]|err] h1]; cbn [negb];
    [|done|done].
  by cbn [property read_property own_property String.eqb Ascii.eqb Bool.eqb].
Qed.

Lemma post_uploadImageToItem_fields (P : platform) (req : request)
    (fields : list (string * value)) (h : trace) :
  body_json req = Returns (VObj fields) ->
  post_uploadImageToItem P req h
  = post_uploadImageToItem P
      (update_request (headers req) (read_property fields "collectionName")
         (read_property fields "itemId") (read_property fields "updates")) h.
Proof.
  intros Hbody. unfold post_uploadImageToItem, update_request. cbn [headers body_json].
  rewrite Hbody. unfold try_catch, mbind, M_bind, lift.
  destruct (isPermitted P "make_connector" (headers req) h) as [[[|]|err] h1]; cbn [negb];
    [|done|done].
  by cbn [property read_property own_property String.eqb Ascii.eqb Bool.eqb].
Qed.

Lemma post_imageBulkUploader_fields (P : platform) (req : request)
    (fields : list (string * value)) (h : trace) :
  body_json req = Returns (VObj fields) ->
  post_imageBulkUploader P req h
  = post_imageBulkUploader P
      (bulk_request (headers req) (read_property fields "folderName")
         (read_property fields "images")) h.
Proof.
  intros Hbody. unfold post_imageBulkUploader, bulk_request. cbn [headers body_json].
  rewrite Hbody. unfold try_catch, mbind, M_bind, lift.
  destruct (isPermitted P "my_secret" (headers req) h) as [[[|]|err] h1]; cbn [negb];
    [|done|done].
  by cbn [property read_property own_property String.eqb Ascii.eqb Bool.eqb].
Qed.

Lemma post_uploadImageToItem_eval (P : platform) (hs : gmap string string)
    (c i u : value) (h : trace) :
  post_uploadImageToItem P (update_request hs c i u) h =
  match isPermitted P "make_connector" hs h with
  | (Returns true, h1) =>
      if truthy c && truthy i && truthy u then
        match import_loop P c i (Object_entries u) h1 with
        | (Returns _, h2) => (Returns (ok body_success), h2)
        | (Throws err, h2) => caught "Image upload error:" err h2
        end
      else caught "Image upload error:" missing_fields h1
  | (Returns false, h1) => (Returns not_authorized, h1)
  | (Throws err, h1) => (Throws err, h1)
  end.
Proof.
  unfold post_uploadImageToItem, update_request. cbn [headers body_json].
  unfold mbind at 1. unfold M_bind at 1.
  destruct (isPermitted P "make_connector" hs h) as [[[|]|err] h1]; cbn [negb]; [|done|done].
  unfold try_catch, mbind, M_bind, lift, throw, console, mret, M_ret, caught.
  cbn [property read_property own_property String.eqb Ascii.eqb Bool.eqb].
  destruct (truthy c), (truthy i), (truthy u); cbn [negb orb andb]; try done.
  by destruct (import_loop P c i (Object_entries u) h1) as [[[]|err] h2].
Qed.

(** X3.  When the body is an object in which [collectionName], [itemId] or
    [updates] is missing or falsy, [post_updateItemField] and
    [post_uploadImageToItem] answer with the error "Missing required fields"
    and call neither the data store nor the media manager. *)
Theorem missing_fields_rejected (P : platform) (req : request)
    (fields : list (string * value)) (h : trace) :
  body_json req = Returns (VObj fields) ->
  fst (isPermitted P "my_secret" (headers req) h) = Returns true ->
  fst (isPermitted P "make_connector" (headers req) h) = Returns true ->
  truthy (read_property fields "collectionName")
  && truthy (read_property fields "itemId")
  && truthy (read_property fields "updates") = false ->
  post_updateItemField P req h
  = (Returns (badRequest
       (body_error "Missing required fields: collectionName, itemId, or updates")),
     h ++ [GetSecret "my_secret"; error_log "Error updating item:"])
  /\ post_uploadImageToItem P req h
    = (Returns (badRequest
         (body_error "Missing required fields: collectionName, itemId, or updates")),
       h ++ [GetSecret "make_connector"; error_log "Image upload error:"]).
Proof.
  intros Hbody H1 H2 Hmissing. split.
  - rewrite (post_updateItemField_fields _ _ _ _ Hbody), post_updateItemField_eval.
    cbn [update_request headers]. rewrite (isPermitted_true _ _ _ _ H1), Hmissing.
    unfold caught, error_log. by rewrite <- app_assoc.
  - rewrite (post_uploadImageToItem_fields _ _ _ _ Hbody), post_uploadImageToItem_eval.
    cbn [update_request headers]. rewrite (isPermitted_true _ _ _ _ H2), Hmissing.
    unfold caught, error_log. by rewrite <- app_assoc.
Qed.

Lemma missing_fields_rejected_witness :
  truthy (read_property [("collectionName", VStr "Books"); ("updates", VObj [])]
            "itemId") = false
  /\ post_updateItemField (reliable "secret1" (Some stored_item))
       {| headers := auth_headers;
          body_json := Returns (VObj [("collectionName", VStr "Books");
                                      ("updates", VObj [])]) |} []
    = (Returns (badRequest
         (body_error "Missing required fields: collectionName, itemId, or updates")),
       [] ++ [GetSecret "my_secret"; error_log "Error updating item:"]).
Proof.
  split; [reflexivity|].
  apply (missing_fields_rejected (reliable "secret1" (Some stored_item))
           {| headers := auth_headers;
              body_json := Returns (VObj [("collectionName", VStr "Books");
                                          ("updates", VObj [])]) |}
           [("collectionName", VStr "Books"); ("updates", VObj [])] []);
    reflexivity.
Defined.

(** X4.  When the promise of [request.body.json()] rejects, each handler
    answers with the message of that error and makes no call after the
    authorization check. *)
Theorem unparsable_body_rejected (P : platform) (req : request) (err : exn) (h : trace) :
  body_json req = Throws err ->
  fst (isPermitted P "my_secret" (headers req) h) = Returns true ->
  fst (isPermitted P "make_connector" (headers req) h) = Returns true ->
  post_updateItemField P req h
  = (Returns (badRequest (body_error (message err))),
     h ++ [GetSecret "my_secret"; error_log "Error updating item:"])
  /\ post_imageBulkUploader P req h
    = (Returns (badRequest (body_error (message err))),
       h ++ [GetSecret "my_secret"; error_log "Image upload error:"])
  /\ post_uploadImageToItem P req h
    = (Returns (badRequest (body_error (message err))),
       h ++ [GetSecret "make_connector"; error_log "Image upload error:"]).
Proof.
  intros Hbody H1 H2. split; [|split].
  - unfold post_updateItemField. unfold mbind at 1. unfold M_bind at 1.
    rewrite (isPermitted_true _ _ _ _ H1). cbn [negb].
    unfold try_catch, mbind, M_bind, lift, console, mret, M_ret, error_log.
    rewrite Hbody. by rewrite <- app_assoc.
  - unfold post_imageBulkUploader. unfold mbind at 1. unfold M_bind at 1.
    rewrite (isPermitted_true _ _ _ _ H1). cbn [negb].
    unfold try_catch, mbind, M_bind, lift, console, mret, M_ret, error_log.
    rewrite Hbody. by rewrite <- app_assoc.
  - unfold post_uploadImageToItem. unfold mbind at 1. unfold M_bind at 1.
    rewrite (isPermitted_true _ _ _ _ H2). cbn [negb].
    unfold try_catch, mbind, M_bind, lift, console, mret, M_ret, error_log.
    rewrite Hbody. by rewrite <- app_assoc.
Qed.

Lemma unparsable_body_rejected_witness :
  fst (isPermitted (reliable "secret1" None) "my_secret" auth_headers []) = Returns true
  /\ post_imageBulkUploader (reliable "secret1" None)
       {| headers := auth_headers;
          body_json := Throws (Error "Unexpected end of JSON input") |} []
    = (Returns (badRequest (body_error "Unexpected end of JSON input")),
       [] ++ [GetSecret "my_secret"; error_log "Image upload error:"]).
Proof.
  split; [reflexivity|].
  apply (unparsable_body_rejected (reliable "secret1" None)
           {| headers := auth_headers;
              body_json := Throws (Error "Unexpected end of JSON input") |}
           (Error "Unexpected end of JSON input") []); reflexivity.
Defined.

(** ** post_updateItemField: the calls on the data store *)

Lemma replaceReferences_loop_app (P : platform) (c i : value)
    (done rest : list multiRefUpdate) (h : trace) :
  replaceReferences_loop P c i (done ++ rest) h =
  match replaceReferences_loop P c i done h with
  | (Returns _, h1) => replaceReferences_loop P c i rest h1
  | (Throws err, h1) => (Throws err, h1)
  end.
Proof.
  revert h. induction done as [|ref done IH]; intros h; [done|].
  cbn [app replaceReferences_loop]. unfold mbind, M_bind, call.
  destruct (wixData_replaceReferences P h c (fieldName ref) i (ids ref)); [apply IH|done].
Qed.

(** A loop that ends without an exception has made every call, in order. *)
Lemma replaceReferences_loop_trace (P : platform) (c i : value)
    (refs : list multiRefUpdate) (h h1 : trace) :
  replaceReferences_loop P c i refs h = (Returns tt, h1) ->
  h1 = h ++ map (replace_call c i) refs.
Proof.
  revert h. induction refs as [|ref refs IH]; intros h.
  - cbn. intros [= <-]. by rewrite app_nil_r.
  - cbn [replaceReferences_loop map]. unfold mbind, M_bind, call.
    destruct (wixData_replaceReferences P h c (fieldName ref) i (ids ref)); [|done].
    intros Hloop. rewrite (IH _ Hloop). by rewrite <- app_assoc.
Qed.

Lemma truthy_string (s : string) : s <> EmptyString -> truthy (VStr s) = true.
Proof. intros Hs. cbn. by destruct (String.eqb_spec s EmptyString). Qed.

(** X5.  When the item does not exist ([wixData.get] resolves to [null]),
    the collection and the item being named by non-empty strings,
    [post_updateItemField] answers with the error naming the item and the
    collection, and writes nothing. *)
Theorem missing_item_rejected (P : platform) (hs : gmap string string)
    (c i : string) (u : value) (h : trace) :
  fst (isPermitted P "my_secret" hs h) = Returns true ->
  c <> EmptyString -> i <> EmptyString -> truthy u = true ->
  wixData_get P (h ++ [GetSecret "my_secret"]) (VStr c) (VStr i) = Returns None ->
  post_updateItemField P (update_request hs (VStr c) (VStr i) u) h
  = (Returns (badRequest
       (body_error ("Item with ID " +:+ i +:+ " not found in collection " +:+ c))),
     h ++ [GetSecret "my_secret"; WixDataGet (VStr c) (VStr i);
           error_log "Error updating item:"]).
Proof.
  intros Hauth Hc Hi Hu Hget.
  rewrite post_updateItemField_eval, (isPermitted_true _ _ _ _ Hauth).
  rewrite !truthy_string, Hu, Hget by done. cbn [andb ToString_call ToPrimitive_throws ToString].
  unfold caught, error_log. cbn [message item_not_found]. by rewrite <- !app_assoc.
Qed.

Lemma missing_item_rejected_witness :
  wixData_get (reliable "secret1" None) ([] ++ [GetSecret "my_secret"])
    (VStr "Books") (VStr "item9") = Returns None
  /\ post_updateItemField (reliable "secret1" None)
       (update_request auth_headers (VStr "Books") (VStr "item9")
          (VObj [("title", VStr "t")])) []
    = (Returns (badRequest
         (body_error ("Item with ID " +:+ "item9" +:+ " not found in collection "
                      +:+ "Books"))),
       [] ++ [GetSecret "my_secret"; WixDataGet (VStr "Books") (VStr "item9");
              error_log "Error updating item:"]).
Proof.
  split; [reflexivity|].
  apply (missing_item_rejected (reliable "secret1" None) auth_headers
           "Books" "item9" (VObj [("title", VStr "t")]) []);
    first [reflexivity | discriminate].
Defined.

(** X6.  When [wixData.update] rejects, the [date_] values of the updates
    all converting in [new Date], [post_updateItemField] answers with the
    message of the rejection and calls [replaceReferences] for none of the
    [refs_] keys of the updates. *)
Theorem update_failure_skips_references (P : platform) (hs : gmap string string)
    (c i u : value) (existing : gmap string value) (err : exn) (h : trace) :
  fst (isPermitted P "my_secret" hs h) = Returns true ->
  truthy c && truthy i && truthy u = true ->
  forallb date_constructible (Object_entries u) = true ->
  wixData_get P (h ++ [GetSecret "my_secret"]) c i = Returns (Some existing) ->
  wixData_update P (h ++ [GetSecret "my_secret"; WixDataGet c i]) c
    (updatedItem existing u) = Throws err ->
  post_updateItemField P (update_request hs c i u) h
  = (Returns (badRequest (body_error (message err))),
     h ++ [GetSecret "my_secret"; WixDataGet c i;
           WixDataUpdate c (updatedItem existing u); error_log "Error updating item:"]).
Proof.
  intros Hauth Hfields Hdates Hget Hupdate.
  rewrite post_updateItemField_eval, (isPermitted_true _ _ _ _ Hauth), Hfields, Hget.
  cbv zeta. rewrite (reduce_call_constructible _ _ Hdates).
  rewrite <- !app_assoc. cbn [app]. rewrite Hupdate.
  unfold caught, error_log. by rewrite <- !app_assoc.
Qed.

Lemma update_failure_skips_references_witness :
  forallb date_constructible
    (Object_entries (VObj [("date_due", VStr "2024-05-01");
                           ("refs_tags", VArr [VStr "id1"])])) = true
  /\ post_updateItemField (update_rejecting "secret1" (Some stored_item))
       (update_request auth_headers (VStr "Books") (VStr "item1")
          (VObj [("date_due", VStr "2024-05-01"); ("refs_tags", VArr [VStr "id1"])])) []
    = (Returns (badRequest (body_error (message (Rejection "update failed")))),
       [] ++ [GetSecret "my_secret"; WixDataGet (VStr "Books") (VStr "item1");
              WixDataUpdate (VStr "Books")
                (updatedItem stored_item
                   (VObj [("date_due", VStr "2024-05-01");
                          ("refs_tags", VArr [VStr "id1"])]));
              error_log "Error updating item:"]).
Proof.
  split; [reflexivity|].
  apply (update_failure_skips_references (update_rejecting "secret1" (Some stored_item))
           auth_headers (VStr "Books") (VStr "item1")
           (VObj [("date_due", VStr "2024-05-01"); ("refs_tags", VArr [VStr "id1"])])
           stored_item (Rejection "update failed") []); reflexivity.
Defined.

(** X7.  The deferred operations are not undone and not completed when one
    of them fails: on a request whose [date_] values all convert, the record
    update is already persisted, the operations before the failing one have
    been issued, the ones after it are never issued, and the answer is the
    error of the failing one. *)
Theorem references_failure_is_partial (P : platform) (hs : gmap string string)
    (c i u : value) (existing : gmap string value)
    (done rest : list multiRefUpdate) (ref : multiRefUpdate) (err : exn) (h : trace) :
  fst (isPermitted P "my_secret" hs h) = Returns true ->
  truthy c && truthy i && truthy u = true ->
  forallb date_constructible (Object_entries u) = true ->
  wixData_get P (h ++ [GetSecret "my_secret"]) c i = Returns (Some existing) ->
  let persisted :=
    h ++ [GetSecret "my_secret"; WixDataGet c i; WixDataUpdate c (updatedItem existing u)] in
  wixData_update P (h ++ [GetSecret "my_secret"; WixDataGet c i]) c
    (updatedItem existing u) = Returns tt ->
  multiRefUpdates u = done ++ ref :: rest ->
  fst (replaceReferences_loop P c i done persisted) = Returns tt ->
  wixData_replaceReferences P (persisted ++ map (replace_call c i) done) c
    (fieldName ref) i (ids ref) = Throws err ->
  post_updateItemField P (update_request hs c i u) h
  = (Returns (badRequest (body_error (message err))),
     persisted ++ map (replace_call c i) done
     ++ [replace_call c i ref; error_log "Error updating item:"]).
Proof.
  intros Hauth Hfields Hdates Hget persisted Hupdate Hrefs Hdone Hfail.
  rewrite post_updateItemField_eval, (isPermitted_true _ _ _ _ Hauth), Hfields, Hget.
  cbv zeta. rewrite (reduce_call_constructible _ _ Hdates).
  rewrite <- !app_assoc. cbn [app]. rewrite Hupdate.
  fold persisted. rewrite Hrefs, replaceReferences_loop_app.
  destruct (replaceReferences_loop P c i done persisted) as [o h1] eqn:Hloop.
  cbn [fst] in Hdone. subst o.
  pose proof (replaceReferences_loop_trace _ _ _ _ _ _ Hloop) as ->.
  cbn [replaceReferences_loop]. unfold mbind, M_bind, call. rewrite Hfail.
  unfold caught, error_log. by rewrite <- !app_assoc.
Qed.

Lemma references_failure_is_partial_witness :
  multiRefUpdates (VObj [("refs_tags", VArr [VStr "t1"]);
                         ("date_due", VStr "2024-05-01");
                         ("refs_authors", VArr [VStr "a1"]);
                         ("refs_shelves", VArr [VStr "s1"])])
  = [ {| fieldName := "tags"; ids := [VStr "t1"] |} ]
    ++ {| fieldName := "authors"; ids := [VStr "a1"] |}
    :: [ {| fieldName := "shelves"; ids := [VStr "s1"] |} ]
  /\ post_updateItemField (references_rejecting "secret1" "authors" (Some stored_item))
       (update_request auth_headers (VStr "Books") (VStr "item1")
          (VObj [("refs_tags", VArr [VStr "t1"]);
                 ("date_due", VStr "2024-05-01");
                 ("refs_authors", VArr [VStr "a1"]);
                 ("refs_shelves", VArr [VStr "s1"])])) []
    = (Returns (badRequest (body_error "references failed")),
       [GetSecret "my_secret"; WixDataGet (VStr "Books") (VStr "item1");
        WixDataUpdate (VStr "Books")
          (<["due" := VDate (VStr "2024-05-01")]> stored_item);
        WixDataReplaceReferences (VStr "Books") "tags" (VStr "item1") [VStr "t1"];
        WixDataReplaceReferences (VStr "Books") "authors" (VStr "item1") [VStr "a1"];
        error_log "Error updating item:"]).
Proof.
  split; [reflexivity|].
  apply (references_failure_is_partial
           (references_rejecting "secret1" "authors" (Some stored_item))
           auth_headers (VStr "Books") (VStr "item1")
           (VObj [("refs_tags", VArr [VStr "t1"]);
                  ("date_due", VStr "2024-05-01");
                  ("refs_authors", VArr [VStr "a1"]);
                  ("refs_shelves", VArr [VStr "s1"])])
           stored_item
           [ {| fieldName := "tags"; ids := [VStr "t1"] |} ]
           [ {| fieldName := "shelves"; ids := [VStr "s1"] |} ]
           {| fieldName := "authors"; ids := [VStr "a1"] |}
           (Rejection "references failed") []); reflexivity.
Defined.

(** X8.  On an authorised request with its three fields, whose [date_]
    values all convert in [new Date], whose item exists and whose writes
    the platform accepts, [post_updateItemField] answers success after
    exactly one read, one update with the merged record, and one
    [replaceReferences] per deferred operation, in the order of the
    updates. *)
Theorem update_success_trace (P : platform) (hs : gmap string string)
    (c i u : value) (existing : gmap string value) (h : trace) :
  fst (isPermitted P "my_secret" hs h) = Returns true ->
  truthy c && truthy i && truthy u = true ->
  forallb date_constructible (Object_entries u) = true ->
  wixData_get P (h ++ [GetSecret "my_secret"]) c i = Returns (Some existing) ->
  wixData_update P (h ++ [GetSecret "my_secret"; WixDataGet c i]) c
    (updatedItem existing u) = Returns tt ->
  (forall h' f l, wixData_replaceReferences P h' c f i l = Returns tt) ->
  post_updateItemField P (update_request hs c i u) h
  = (Returns (ok body_success),
     h ++ [GetSecret "my_secret"; WixDataGet c i;
           WixDataUpdate c (updatedItem existing u)]
     ++ map (replace_call c i) (multiRefUpdates u)).
Proof.
  intros Hauth Hfields Hdates Hget Hupdate Hreplace.
  rewrite post_updateItemField_eval, (isPermitted_true _ _ _ _ Hauth), Hfields, Hget.
  cbv zeta. rewrite (reduce_call_constructible _ _ Hdates).
  rewrite <- !app_assoc. cbn [app]. rewrite Hupdate.
  rewrite replaceReferences_loop_reliable by done. by rewrite <- !app_assoc.
Qed.

Lemma update_success_trace_witness :
  forallb date_constructible (Object_entries (VObj full_updates)) = true
  /\ post_updateItemField (reliable "secret1" (Some stored_item))
       (update_request auth_headers (VStr "Books") (VStr "item1") (VObj full_updates)) []
    = (Returns (ok body_success),
       [GetSecret "my_secret"; WixDataGet (VStr "Books") (VStr "item1");
        WixDataUpdate (VStr "Books")
          (<["title" := VStr "new title"]>
             (<["due" := VDate (VStr "2024-05-01")]>
                (<["done" := VBool true]> stored_item)));
        WixDataReplaceReferences (VStr "Books") "tags" (VStr "item1")
          [VStr "id2"; VStr "id1"];
        WixDataReplaceReferences (VStr "Books") "authors" (VStr "item1") [VStr "a1"]]).
Proof.
  split; [reflexivity|].
  apply (update_success_trace (reliable "secret1" (Some stored_item)) auth_headers
           (VStr "Books") (VStr "item1") (VObj full_updates) stored_item []);
    reflexivity.
Defined.

Lemma reduce_call_unconvertible (entries : list (string * value))
    (st : object * list multiRefUpdate) :
  forallb date_constructible entries = false ->
  reduce_call entries st = Throws conversion_error.
Proof.
  revert st. induction entries as [|entry entries IH]; intros st; [done|].
  cbn [forallb reduce_call]. destruct (date_constructible entry) eqn:Hentry.
  - rewrite reducer_call_constructible by done. apply IH.
  - intros _. unfold date_constructible in Hentry. unfold reducer_call, new_Date.
    destruct (startsWith entry.1 "date_"); [|done].
    by destruct (ToPrimitive_throws entry.2).
Qed.

(** X28.  A [date_] value that [new Date] cannot convert, an object with an
    own [toString] key or an array holding one, makes the whole request
    fail before anything is written: [post_updateItemField] reads the item,
    answers with the error of the conversion, and calls neither
    [wixData.update] nor [replaceReferences], whatever the other entries
    are. *)
Theorem unconvertible_date_rejected (P : platform) (hs : gmap string string)
    (c i u : value) (existing : gmap string value) (h : trace) :
  fst (isPermitted P "my_secret" hs h) = Returns true ->
  truthy c && truthy i && truthy u = true ->
  forallb date_constructible (Object_entries u) = false ->
  wixData_get P (h ++ [GetSecret "my_secret"]) c i = Returns (Some existing) ->
  post_updateItemField P (update_request hs c i u) h
  = (Returns (badRequest (body_error (message conversion_error))),
     h ++ [GetSecret "my_secret"; WixDataGet c i; error_log "Error updating item:"]).
Proof.
  intros Hauth Hfields Hdate Hget.
  rewrite post_updateItemField_eval, (isPermitted_true _ _ _ _ Hauth), Hfields, Hget.
  cbv zeta. rewrite (reduce_call_unconvertible _ _ Hdate).
  unfold caught, error_log. by rewrite <- !app_assoc.
Qed.

Lemma unconvertible_date_rejected_witness :
  forallb date_constructible
    (Object_entries (VObj [("title", VStr "t");
                           ("date_due", VObj [("toString", VNum 1)]);
                           ("refs_tags", VArr [VStr "id1"])])) = false
  /\ post_updateItemField (reliable "secret1" (Some stored_item))
       (update_request auth_headers (VStr "Books") (VStr "item1")
          (VObj [("title", VStr "t");
                 ("date_due", VObj [("toString", VNum 1)]);
                 ("refs_tags", VArr [VStr "id1"])])) []
    = (Returns (badRequest (body_error (message conversion_error))),
       [] ++ [GetSecret "my_secret"; WixDataGet (VStr "Books") (VStr "item1");
              error_log "Error updating item:"]).
Proof.
  split; [reflexivity|].
  apply (unconvertible_date_rejected (reliable "secret1" (Some stored_item)) auth_headers
           (VStr "Books") (VStr "item1")
           (VObj [("title", VStr "t");
                  ("date_due", VObj [("toString", VNum 1)]);
                  ("refs_tags", VArr [VStr "id1"])])
           stored_item []); reflexivity.
Defined.

(** ** The merge of post_updateItemField *)

Lemma last_writer_wins (existing : gmap string value)
    (pre post : list (string * value)) (key name : string) (v : value) :
  target key = Some name -> name <> "__proto__" ->
  Forall (fun e => target e.1 <> Some name) post ->
  updatedItem existing (VObj (pre ++ (key, v) :: post)) !! name = Some (written key v).
Proof.
  intros Ht Hname Hpost. unfold updatedItem, cleanedUpdates, reduce.
  cbn [Object_entries]. rewrite foldl_app. cbn [foldl].
  destruct (foldl reducer (empty_object, []) pre) as [acc refs].
  apply lookup_union_Some_l. rewrite reduce_lookup_untouched by done.
  rewrite reducer_eq, Ht. cbn [fst]. by apply lookup_assign_eq.
Qed.

(** X9.  For a key [date_<name>] with [<name>] other than [__proto__], and
    when no later entry of the updates writes the field [<name>], the merged
    record holds under [<name>] the [Date] made from the value, whatever the
    existing record had there. *)
Theorem date_coercion (existing : gmap string value)
    (pre post : list (string * value)) (name : string) (v : value) :
  name <> "__proto__" ->
  Forall (fun e => target e.1 <> Some name) post ->
  updatedItem existing (VObj (pre ++ ("date_" +:+ name, v) :: post)) !! name
  = Some (VDate v).
Proof.
  intros Hname Hpost.
  rewrite (last_writer_wins existing pre post ("date_" +:+ name) name v);
    [|by apply target_prefixed; left|done|done].
  unfold written. by rewrite startsWith_app.
Qed.

Lemma date_coercion_witness :
  "due" <> "__proto__"
  /\ updatedItem stored_item
       (VObj ([("title", VStr "t")] ++ ("date_" +:+ "due", VStr "2024-05-01")
              :: [("safebool_done", VNum 1)])) !! "due"
    = Some (VDate (VStr "2024-05-01")).
Proof.
  split; [discriminate|].
  apply (date_coercion stored_item [("title", VStr "t")] [("safebool_done", VNum 1)]
           "due" (VStr "2024-05-01")).
  - discriminate.
  - repeat constructor. vm_compute. discriminate.
Defined.

(** X10.  A key without any of the prefixes [date_], [refs_], [safebool_],
    other than [__proto__], is merged verbatim: when no later entry writes the
    same field, the merged record holds the raw value under the literal key,
    whatever the existing record had there. *)
Theorem plain_key_verbatim (existing : gmap string value)
    (pre post : list (string * value)) (key : string) (v : value) :
  startsWith key "date_" = false ->
  startsWith key "refs_" = false ->
  startsWith key "safebool_" = false ->
  key <> "__proto__" ->
  Forall (fun e => target e.1 <> Some key) post ->
  updatedItem existing (VObj (pre ++ (key, v) :: post)) !! key = Some v.
Proof.
  intros Hd Hr Hs Hkey Hpost.
  rewrite (last_writer_wins existing pre post key key v); [|..|done|done].
  - unfold written. by rewrite Hd, Hs.
  - unfold target. by rewrite Hd, Hr, Hs.
Qed.

Lemma plain_key_verbatim_witness :
  startsWith "title" "date_" = false
  /\ updatedItem stored_item
       (VObj ([("safebool_done", VNum 1)] ++ ("title", VStr "new title") :: [])) !! "title"
    = Some (VStr "new title").
Proof.
  split; [reflexivity|].
  apply (plain_key_verbatim stored_item [("safebool_done", VNum 1)] [] "title"
           (VStr "new title")); try reflexivity.
  - discriminate.
  - constructor.
Defined.

(** X11.  The update leaves alone every field of the existing record that no
    entry of the updates writes: the merged record holds there what the
    existing record held, and has no such field when the existing record had
    none. *)
Theorem untouched_fields_preserved (existing : gmap string value)
    (entries : list (string * value)) (k : string) :
  Forall (fun e => target e.1 <> Some k) entries ->
  updatedItem existing (VObj entries) !! k = existing !! k.
Proof.
  intros Hentries. unfold updatedItem, cleanedUpdates, reduce. cbn [Object_entries].
  apply lookup_union_r. by rewrite reduce_lookup_untouched.
Qed.

Lemma untouched_fields_preserved_witness :
  Forall (fun e : string * value => target e.1 <> Some "_id")
    [("title", VStr "t"); ("refs_tags", VArr []); ("date_due", VStr "2024-05-01")]
  /\ updatedItem stored_item
       (VObj [("title", VStr "t"); ("refs_tags", VArr []);
              ("date_due", VStr "2024-05-01")]) !! "_id"
    = stored_item !! "_id".
Proof.
  assert (Forall (fun e : string * value => target e.1 <> Some "_id")
            [("title", VStr "t"); ("refs_tags", VArr []);
             ("date_due", VStr "2024-05-01")]) as H.
  { repeat constructor; vm_compute; discriminate. }
  split; [exact H|].
  exact (untouched_fields_preserved stored_item _ "_id" H).
Defined.

Lemma refs_key_not_date (key : string) :
  startsWith key "refs_" = true -> startsWith key "date_" = false.
Proof. intros H. by rewrite (startsWith_inv _ _ H). Qed.

Lemma refs_key_stripped (key : string) :
  startsWith key "refs_" = true -> replace key "refs_" EmptyString = string_drop 5 key.
Proof.
  intros H. rewrite (startsWith_inv _ _ H) at 1. by rewrite replace_prefix.
Qed.

Lemma deferred_defers (entry : string * value) :
  deferred entry = if defers entry then [deferred_operation entry] else [].
Proof.
  unfold deferred, defers, deferred_operation.
  destruct (startsWith entry.1 "refs_") eqn:Hrefs.
  - rewrite refs_key_not_date by done. cbn [negb andb].
    destruct (Array_isArray entry.2); [|done]. by rewrite refs_key_stripped.
  - by rewrite andb_false_r.
Qed.

(** X12.  The deferred operations are, in the order of the updates, one per
    key with the prefix [refs_] whose value is an array: the field is the key
    without its first five characters and the identifiers are the elements of
    the array.  Keys with another prefix, and [refs_] keys with another kind
    of value, defer nothing. *)
Theorem deferred_operations_in_order (entries : list (string * value)) :
  multiRefUpdates (VObj entries) = map deferred_operation (List.filter defers entries).
Proof.
  rewrite multiRefUpdates_deferred.
  induction entries as [|entry entries IH]; [done|].
  cbn [flat_map List.filter]. rewrite IH, deferred_defers.
  by destruct (defers entry).
Qed.

Lemma accessor_kept (entries : list (string * value)) (st : object * list multiRefUpdate) :
  Forall (fun e => target e.1 <> Some "__proto__") entries ->
  proto_accessor (fst st) = true -> props (fst st) !! "__proto__" = None ->
  proto_accessor (fst (foldl reducer st entries)) = true
  /\ props (fst (foldl reducer st entries)) !! "__proto__" = None.
Proof.
  revert st. induction entries as [|[key v] entries IH]; intros [acc refs] Hall Hacc Hnone;
    [done|].
  inversion Hall as [|? ? Hhd Htl]; subst. cbn [foldl]. apply IH; [done|..];
    rewrite reducer_eq; cbn [fst snd] in *; destruct (target key) as [realKey|]; try done.
  - unfold assign. destruct (String.eqb_spec realKey "__proto__") as [->|]; [done|].
    done.
  - rewrite lookup_assign_ne; [done|]. by intros ->.
Qed.

(** X13.  No update can set a field named [__proto__] to a boolean: while no
    earlier entry has written [__proto__], the entry [safebool___proto__] is
    ignored, the accumulator and the deferred operations staying as they
    were. *)
Theorem safebool_proto_ignored (pre post : list (string * value)) (v : value) :
  Forall (fun e => target e.1 <> Some "__proto__") pre ->
  reduce (pre ++ ("safebool___proto__", v) :: post) = reduce (pre ++ post).
Proof.
  intros Hpre. unfold reduce. rewrite !foldl_app. cbn [foldl]. f_equal.
  destruct (accessor_kept pre (empty_object, []) Hpre eq_refl eq_refl) as [Hacc Hnone].
  destruct (foldl reducer (empty_object, []) pre) as [acc refs]. cbn [fst] in *.
  rewrite reducer_eq. change (target "safebool___proto__") with (Some "__proto__").
  change (deferred ("safebool___proto__", v)) with (@nil multiRefUpdate).
  rewrite app_nil_r. f_equal.
  unfold assign. cbn [String.eqb Ascii.eqb Bool.eqb]. rewrite Hnone, Hacc.
  by change (written "safebool___proto__" v) with (VBool (safebool v)).
Qed.

Lemma safebool_proto_ignored_witness :
  Forall (fun e : string * value => target e.1 <> Some "__proto__") [("title", VStr "t")]
  /\ reduce ([("title", VStr "t")] ++ ("safebool___proto__", VBool true) :: [])
    = reduce ([("title", VStr "t")] ++ []).
Proof.
  assert (Forall (fun e : string * value => target e.1 <> Some "__proto__")
            [("title", VStr "t")]) as H.
  { repeat constructor; vm_compute; discriminate. }
  split; [exact H|].
  exact (safebool_proto_ignored [("title", VStr "t")] [] (VBool true) H).
Defined.

(** ** getMimeType: which part of the name counts *)

Lemma split_last_segment (sep : ascii) (base ext : string) :
  (forall c, In c (list_ascii_of_string ext) -> c <> sep) ->
  exists first middle,
    split sep (base +:+ String sep ext) = first :: middle ++ [ext].
Proof.
  intros Hext. induction base as [|c base (first & middle & IH)].
  - exists EmptyString, []. change (EmptyString +:+ String sep ext) with (String sep ext).
    cbn [split]. by rewrite Ascii.eqb_refl, split_no_separator.
  - change (String c base +:+ String sep ext) with (String c (base +:+ String sep ext)).
    cbn [split]. rewrite IH. destruct (Ascii.eqb c sep).
    + by exists EmptyString, (first :: middle).
    + by exists (String c first), middle.
Qed.

Lemma pop_last_segment (sep : ascii) (base ext : string) :
  (forall c, In c (list_ascii_of_string ext) -> c <> sep) ->
  pop (split sep (base +:+ String sep ext)) = ext.
Proof.
  intros Hext. destruct (split_last_segment sep base ext Hext) as (first & middle & ->).
  unfold pop. change (first :: middle ++ [ext]) with ((first :: middle) ++ [ext]).
  apply List.last_last.
Qed.

Lemma mime_after_last_dot (base ext : string) :
  (forall c, In c (list_ascii_of_string ext) -> c <> "."%char) ->
  toLowerCase ext <> "constructor" -> toLowerCase ext <> "__proto__" ->
  getMimeType (VStr (base +:+ String "." ext))
  = Returns (VStr (mime_of_extension (toLowerCase ext))).
Proof.
  intros Hext Hc Hp. unfold getMimeType. cbn [split_method].
  rewrite pop_last_segment by done.
  f_equal. apply mime_lookup; [apply toLowerCase_idemp | done | done].
Qed.

(** X14.  Only the text after the last dot of a file name counts, and its
    case does not: for a name [base.ext], [ext] holding no dot and not being
    a spelling of [constructor] or [__proto__], [getMimeType] gives what the
    table gives for [ext] in lower case, [image/jpeg] when the table has no
    such extension. *)
Theorem mime_of_last_extension (base ext : string) :
  (forall c, In c (list_ascii_of_string ext) -> c <> "."%char) ->
  toLowerCase ext <> "constructor" -> toLowerCase ext <> "__proto__" ->
  getMimeType (VStr (base +:+ String "." ext))
  = Returns (VStr (mime_of_extension (toLowerCase ext))).
Proof. apply mime_after_last_dot. Qed.

Lemma mime_of_last_extension_witness :
  toLowerCase "PNG" <> "constructor"
  /\ getMimeType (VStr ("holiday.2024.v2" +:+ String "." "PNG"))
    = Returns (VStr (mime_of_extension (toLowerCase "PNG"))).
Proof.
  split; [discriminate|].
  apply (mime_of_last_extension "holiday.2024.v2" "PNG").
  - intros c Hc. vm_compute in Hc.
    repeat (destruct Hc as [<-|Hc]; [discriminate|]). destruct Hc.
  - discriminate.
  - discriminate.
Defined.

(** X15.  A file name without a dot is taken as its own extension: it gets
    the table's type when the whole name, in lower case, is one of the
    table's extensions (so [png] gets [image/png]), and [image/jpeg]
    otherwise. *)
Theorem mime_of_dotless_name (fileName : string) :
  (forall c, In c (list_ascii_of_string fileName) -> c <> "."%char) ->
  toLowerCase fileName <> "constructor" -> toLowerCase fileName <> "__proto__" ->
  getMimeType (VStr fileName)
  = Returns (VStr (mime_of_extension (toLowerCase fileName))).
Proof.
  intros Hdot Hc Hp. unfold getMimeType. cbn [split_method].
  rewrite split_no_separator by done. cbn [pop List.last].
  f_equal. apply mime_lookup; [apply toLowerCase_idemp | done | done].
Qed.

Lemma mime_of_dotless_name_witness :
  toLowerCase "png" <> "constructor"
  /\ getMimeType (VStr "png") = Returns (VStr (mime_of_extension (toLowerCase "png")))
  /\ mime_of_extension (toLowerCase "png") = "image/png".
Proof.
  split; [discriminate|]. split; [|reflexivity].
  apply (mime_of_dotless_name "png").
  - intros c Hc. vm_compute in Hc.
    repeat (destruct Hc as [<-|Hc]; [discriminate|]). destruct Hc.
  - discriminate.
  - discriminate.
Defined.

Lemma append_assoc (a b c : string) : (a +:+ b) +:+ c = a +:+ (b +:+ c).
Proof.
  induction a as [|x a IH]; [done|].
  change (String x ((a +:+ b) +:+ c) = String x (a +:+ (b +:+ c))). by rewrite IH.
Qed.

(** X16.  The name made up when neither [imageName] nor the URL gives one,
    [image-<Date.now()>.jpg], is typed [image/jpeg] whatever the clock
    says. *)
Theorem timestamp_name_is_jpeg (P : platform) (h : trace) :
  exists name,
    timestamp_name P h = (Returns (VStr name), h)
    /\ getMimeType (VStr name) = Returns (VStr "image/jpeg").
Proof.
  eexists. split; [reflexivity|].
  change (pretty (Date_now P h) +:+ ".jpg")
    with (pretty (Date_now P h) +:+ String "." "jpg").
  rewrite <- append_assoc.
  rewrite mime_after_last_dot; [done|..|discriminate|discriminate].
  intros c Hc. vm_compute in Hc.
  repeat (destruct Hc as [<-|Hc]; [discriminate|]). destruct Hc.
Qed.

(** [getMimeType] has no answer for a name that is not a string. *)
Lemma getMimeType_not_a_string (fileName : value) :
  (forall s, fileName <> VStr s) -> exists err, getMimeType fileName = Throws err.
Proof.
  intros Hns. unfold getMimeType, split_method.
  destruct fileName; try by eexists. by destruct (Hns s).
Qed.

(** ** The calls each handler makes *)

Section Only.
Context (allowed : effect -> bool).

Lemma only_ret {A : Type} (a : A) : only allowed (mret a).
Proof. intros h. exists []. by rewrite app_nil_r. Qed.

Lemma only_throw {A : Type} (err : exn) : only allowed (@throw A err).
Proof. intros h. exists []. by rewrite app_nil_r. Qed.

Lemma only_lift {A : Type} (o : outcome A) : only allowed (lift o).
Proof. intros h. exists []. by rewrite app_nil_r. Qed.

Lemma only_call {A : Type} (e : effect) (oracle : trace -> outcome A) :
  allowed e = true -> only allowed (call e oracle).
Proof. intros He h. exists [e]. split; [done | by constructor]. Qed.

Lemma only_console (lvl : level) (text : string) :
  allowed (Console lvl text) = true -> only allowed (console lvl text).
Proof. intros He h. exists [Console lvl text]. split; [done | by constructor]. Qed.

Lemma only_bind {A B : Type} (m : M A) (k : A -> M B) :
  only allowed m -> (forall a, only allowed (k a)) -> only allowed (m ≫= k).
Proof.
  intros Hm Hk h. unfold mbind, M_bind.
  destruct (Hm h) as (l1 & Hh1 & Hl1). destruct (m h) as [[a|err] h1]; cbn [snd] in *; subst.
  - destruct (Hk a (h ++ l1)) as (l2 & -> & Hl2).
    exists (l1 ++ l2). split; [by rewrite app_assoc | by apply Forall_app].
  - by exists l1.
Qed.

Lemma only_try_catch {A : Type} (m : M A) (handler : exn -> M A) :
  only allowed m -> (forall err, only allowed (handler err)) ->
  only allowed (try_catch m handler).
Proof.
  intros Hm Hk h. unfold try_catch.
  destruct (Hm h) as (l1 & Hh1 & Hl1). destruct (m h) as [[a|err] h1]; cbn [snd] in *; subst.
  - by exists l1.
  - destruct (Hk err (h ++ l1)) as (l2 & -> & Hl2).
    exists (l1 ++ l2). split; [by rewrite app_assoc | by apply Forall_app].
Qed.
End Only.

(** The steps of a handler, one rule at a time. *)
Ltac only_step :=
  first
    [ apply only_ret | apply only_throw | apply only_lift
    | apply only_console; reflexivity
    | apply only_call; reflexivity
    | apply only_bind; [|intros ?]
    | apply only_try_catch; [|intros ?]
    | match goal with
      | |- only _ (if ?b then _ else _) => destruct b
      | |- only _ (match ?x with _ => _ end) => destruct x
      | |- only _ (let _ := _ in _) => cbv zeta
      end ].

Lemma isPermitted_only (allowed : effect -> bool) (P : platform) (secretName : string)
    (hs : gmap string string) :
  (forall name, allowed (GetSecret name) = true) ->
  (forall lvl text, allowed (Console lvl text) = true) ->
  only allowed (isPermitted P secretName hs).
Proof.
  intros Hsecret Hconsole. unfold isPermitted.
  apply only_try_catch; [cbv zeta|intros err].
  - apply only_bind; [by apply only_call | intros s; apply only_ret].
  - apply only_bind; [by apply only_console | intros []; apply only_ret].
Qed.

Lemma replaceReferences_loop_only (P : platform) (c i : value) (refs : list multiRefUpdate) :
  only data_call (replaceReferences_loop P c i refs).
Proof.
  induction refs as [|ref refs IH]; cbn [replaceReferences_loop]; repeat only_step.
  apply IH.
Qed.

Lemma upload_image_only (P : platform) (f image : value) :
  only bulk_import_call (upload_image P f image).
Proof. unfold upload_image, name_from_url, timestamp_name. repeat only_step.
  intros h. exists []. by rewrite app_nil_r.
Qed.

Lemma upload_loop_only (P : platform) (f : value) (images : list value)
    (rs : list uploadResult) :
  only bulk_import_call (upload_loop P f images rs).
Proof.
  revert rs. induction images as [|image images IH]; intros rs; cbn [upload_loop].
  - apply only_ret.
  - apply only_bind; [apply upload_image_only | intros pushed; apply IH].
Qed.

Lemma import_loop_only (P : platform) (c i : value) (entries : list (string * value)) :
  only item_import_call (import_loop P c i entries).
Proof.
  induction entries as [|[key v] entries IH]; cbn [import_loop]; [apply only_ret|].
  apply only_bind; [|intros []; apply IH].
  unfold import_entry, name_from_url, timestamp_name. repeat only_step.
  intros h. exists []. by rewrite app_nil_r.
Qed.

(** X17.  Each handler keeps to its own part of the platform, whatever the
    request and whatever the platform answers.  It only adds to the history;
    [post_imageBulkUploader] reads the secret, logs, and imports without a
    context, never touching the data store; [post_uploadImageToItem] does
    the same with a context on every import, so the record is written by
    the upload handler only; [post_updateItemField] reads the secret, logs
    and calls the data store, never the media manager; and the upload
    handler logs, reads and updates the record, and nothing else. *)
Theorem handlers_keep_to_their_calls (P : platform) (req : request) (event : value) :
  only bulk_import_call (post_imageBulkUploader P req)
  /\ only item_import_call (post_uploadImageToItem P req)
  /\ only data_call (post_updateItemField P req)
  /\ only write_back_call (wixMediaManager_onFileUploaded P event)
  /\ only write_back_call (OlderCopy.wixMediaManager_onFileUploaded P event).
Proof.
  split; [|split; [|split; [|split]]].
  - unfold post_imageBulkUploader.
    apply only_bind; [by apply isPermitted_only|intros permitted].
    repeat only_step. apply upload_loop_only.
  - unfold post_uploadImageToItem.
    apply only_bind; [by apply isPermitted_only|intros permitted].
    repeat only_step. apply import_loop_only.
  - unfold post_updateItemField.
    apply only_bind; [by apply isPermitted_only|intros permitted].
    repeat only_step. apply replaceReferences_loop_only.
  - unfold wixMediaManager_onFileUploaded. repeat only_step.
  - unfold OlderCopy.wixMediaManager_onFileUploaded. repeat only_step.
Qed.

(** ** post_imageBulkUploader: the body *)

(** X18.  Without a folder name, or when [images] is not an array,
    [post_imageBulkUploader] answers with the error "Missing or invalid
    'folderName' or 'images' array" and imports nothing. *)
Theorem invalid_bulk_body_rejected (P : platform) (req : request)
    (fields : list (string * value)) (h : trace) :
  body_json req = Returns (VObj fields) ->
  fst (isPermitted P "my_secret" (headers req) h) = Returns true ->
  truthy (read_property fields "folderName")
  && Array_isArray (read_property fields "images") = false ->
  post_imageBulkUploader P req h
  = (Returns (badRequest
       (body_error "Missing or invalid 'folderName' or 'images' array")),
     h ++ [GetSecret "my_secret"; error_log "Image upload error:"]).
Proof.
  intros Hbody Hauth Hinvalid.
  rewrite (post_imageBulkUploader_fields _ _ _ _ Hbody), post_imageBulkUploader_eval.
  cbn [bulk_request headers]. rewrite (isPermitted_true _ _ _ _ Hauth), Hinvalid.
  unfold caught, error_log. by rewrite <- app_assoc.
Qed.

Lemma invalid_bulk_body_rejected_witness :
  truthy (read_property [("folderName", VStr "f"); ("images", image_a)] "folderName")
  && Array_isArray (read_property [("folderName", VStr "f"); ("images", image_a)] "images")
  = false
  /\ post_imageBulkUploader (reliable "secret1" None)
       {| headers := auth_headers;
          body_json := Returns (VObj [("folderName", VStr "f"); ("images", image_a)]) |} []
    = (Returns (badRequest
         (body_error "Missing or invalid 'folderName' or 'images' array")),
       [] ++ [GetSecret "my_secret"; error_log "Image upload error:"]).
Proof.
  split; [reflexivity|].
  apply (invalid_bulk_body_rejected (reliable "secret1" None)
           {| headers := auth_headers;
              body_json := Returns (VObj [("folderName", VStr "f"); ("images", image_a)]) |}
           [("folderName", VStr "f"); ("images", image_a)] []); reflexivity.
Defined.

(** ** post_uploadImageToItem *)

Lemma import_loop_image_keys (P : platform) (c i : value)
    (entries : list (string * value)) (h : trace) :
  import_loop P c i entries h = import_loop P c i (List.filter image_key entries) h.
Proof.
  revert h. induction entries as [|[key v] entries IH]; intros h; [done|].
  cbn [List.filter]. unfold image_key at 1. cbn [fst].
  destruct (startsWith key "image_") eqn:Himage.
  - cbn [import_loop]. unfold mbind, M_bind.
    destruct (import_entry P c i (key, v) h) as [[[]|err] h1]; [apply IH | done].
  - cbn [import_loop]. unfold mbind at 1. unfold M_bind at 1.
    unfold import_entry at 1. rewrite Himage. cbn. apply IH.
Qed.

(** X19.  [post_uploadImageToItem] acts on the keys with the prefix [image_]
    only: the other entries of the updates change neither its answer nor
    its calls, and it answers success even when no entry is an image. *)
Theorem uploadImageToItem_ignores_other_keys (P : platform) (hs : gmap string string)
    (c i : value) (entries : list (string * value)) (h : trace) :
  post_uploadImageToItem P (update_request hs c i (VObj entries)) h
  = post_uploadImageToItem P
      (update_request hs c i (VObj (List.filter image_key entries))) h.
Proof.
  rewrite !post_uploadImageToItem_eval. cbn [Object_entries truthy].
  destruct (isPermitted P "make_connector" hs h) as [[[|]|err] h1]; [|done|done].
  by rewrite import_loop_image_keys.
Qed.

(** X20.  For a key [image_<field>] whose value is a string, the collection
    and the item being named by strings, [post_uploadImageToItem] asks for
    exactly one import, of that URL into the folder of the collection, with
    a MIME type and with the context of the collection, the item and
    [<field>], the prefix stripped; it logs the result when the import
    succeeds. *)
Theorem image_key_imported_with_context (P : platform) (c i field url : string)
    (h : trace) :
  exists mime outcome,
    import_entry P (VStr c) (VStr i) ("image_" +:+ field, VStr url) h
    = (outcome,
       h ++ ImportFile ("/" +:+ c) (VStr url) mime
              (Some {| ctx_collectionName := c; ctx_itemId := i;
                       ctx_fieldName := field |})
         :: match outcome with
            | Returns _ => [Console LogLevel "importResult"]
            | Throws _ => []
            end).
Proof.
  unfold import_entry. rewrite startsWith_app, replace_prefix.
  unfold name_from_url, timestamp_name, getMimeType, mbind, M_bind, lift, call, console,
    mret, M_ret.
  cbn [split_method ToString_call ToPrimitive_throws ToString].
  destruct (truthy (VStr (pop (split "/" url)))); cbn [split_method].
  - destruct (mediaManager_importFile P h _ _ _ _) as [r|err];
      [eexists _, (Returns tt); by rewrite <- app_assoc | by eexists _, (Throws err)].
  - destruct (mediaManager_importFile P h _ _ _ _) as [r|err];
      [eexists _, (Returns tt); by rewrite <- app_assoc | by eexists _, (Throws err)].
Qed.

(** ** wixMediaManager_onFileUploaded: the write back *)

Lemma write_back_returns (P : platform) (c i f fileInfo : value) (h : trace) :
  exists h', write_back P c i f fileInfo h = (Returns tt, h').
Proof.
  unfold write_back.
  match goal with
  | |- exists h', try_catch ?m ?k h = _ =>
      destruct (try_catch_returns m k h) as ([] & h' & Hrun); [|by exists h']
  end.
  intros err h1. by eexists tt, _.
Qed.

(** X21.  The context that [post_uploadImageToItem] attaches to an import
    brings the upload back to its field: on the event raised with that
    context and the URL of the stored file, all of them non-empty and the
    field not being [__proto__], the upload handler reads the item of the
    collection, sets that one field to the URL, leaving the other fields as
    they were, and persists the item. *)
Theorem upload_written_back (P : platform) (ctx : importContext) (url : string)
    (item : gmap string value) (h : trace) :
  ctx_collectionName ctx <> EmptyString -> ctx_itemId ctx <> EmptyString ->
  ctx_fieldName ctx <> EmptyString -> url <> EmptyString ->
  ctx_fieldName ctx <> "__proto__" ->
  let c := VStr (ctx_collectionName ctx) in
  let i := VStr (ctx_itemId ctx) in
  let written := <[ctx_fieldName ctx := VStr url]> item in
  wixData_get P h c i = Returns (Some item) ->
  wixData_update P (h ++ [WixDataGet c i; Console LogLevel "fileInfo"]) c written
  = Returns tt ->
  exists text,
    wixMediaManager_onFileUploaded P (upload_event ctx url) h
    = (Returns tt,
       h ++ [WixDataGet c i; Console LogLevel "fileInfo"; WixDataUpdate c written;
             Console LogLevel text]).
Proof.
  intros Hc Hi Hf Hurl Hproto c i written Hget Hupdate.
  rewrite (onFileUploaded_guard P (upload_event ctx url)
             (VObj [ ("collectionName", VStr (ctx_collectionName ctx));
                     ("itemId", VStr (ctx_itemId ctx));
                     ("fieldName", VStr (ctx_fieldName ctx)) ])
             (VObj [ ("fileUrl", VStr url) ]) h eq_refl eq_refl).
  unfold upload_complete.
  change (optional_property (VObj [ ("fileUrl", VStr url) ]) "fileUrl") with (VStr url).
  change (optional_property _ "collectionName") with c.
  change (optional_property _ "itemId") with i.
  change (optional_property _ "fieldName") with (VStr (ctx_fieldName ctx)).
  unfold c, i. rewrite !truthy_string by done. cbn [andb].
  unfold write_back, try_catch, mbind, M_bind, call, lift, console.
  fold c i. rewrite Hget.
  change (property (VObj [ ("fileUrl", VStr url) ]) "fileUrl") with (Returns (VStr url)).
  unfold c, i. cbn [ToString_call ToPrimitive_throws ToString]. fold c i. cbv zeta.
  assert (props (assign {| props := item; proto_accessor := true |}
                   (ctx_fieldName ctx) (VStr url)) = written) as ->.
  { unfold assign. by destruct (String.eqb_spec (ctx_fieldName ctx) "__proto__"). }
  eexists. rewrite <- !app_assoc. cbn [app]. rewrite Hupdate.
  cbv iota beta. rewrite <- ?app_assoc. reflexivity.
Qed.

Lemma upload_written_back_witness :
  wixData_get (reliable "secret1" (Some stored_item)) []
    (VStr "Books") (VStr "item1") = Returns (Some stored_item)
  /\ exists text,
      wixMediaManager_onFileUploaded (reliable "secret1" (Some stored_item))
        (upload_event (field_context (VStr "Books") (VStr "item1") "cover")
           "wix:image://v1/a.png") []
      = (Returns tt,
         [] ++ [WixDataGet (VStr "Books") (VStr "item1"); Console LogLevel "fileInfo";
                WixDataUpdate (VStr "Books")
                  (<["cover" := VStr "wix:image://v1/a.png"]> stored_item);
                Console LogLevel text]).
Proof.
  split; [reflexivity|].
  apply (upload_written_back (reliable "secret1" (Some stored_item))
           (field_context (VStr "Books") (VStr "item1") "cover")
           "wix:image://v1/a.png" stored_item []);
    first [discriminate | reflexivity].
Defined.

(** X22.  The upload handler of [uploadImageToItem.js] never throws on an
    event object: whatever the event holds and whatever the data store
    answers, a failure is logged and the handler returns. *)
Theorem onFileUploaded_never_throws (P : platform) (event : value) (h : trace) :
  nullish event = false ->
  exists h', wixMediaManager_onFileUploaded P event h = (Returns tt, h').
Proof.
  intros Hevent.
  rewrite (onFileUploaded_guard P event (optional_property event "context")
             (optional_property event "fileInfo") h)
    by (by apply property_not_nullish).
  destruct (upload_complete _ _); [apply write_back_returns | by eexists].
Qed.

Lemma onFileUploaded_never_throws_witness :
  nullish event_without_context = false
  /\ exists h',
      wixMediaManager_onFileUploaded get_rejecting event_without_context [] = (Returns tt, h').
Proof.
  split; [reflexivity|].
  apply (onFileUploaded_never_throws get_rejecting event_without_context []).
  reflexivity.
Defined.

(** X23.  When the item cannot be read, the read being rejected or finding
    no item, the upload handler logs the failure and updates nothing. *)
Theorem failed_read_writes_nothing (P : platform) (event context fileInfo : value)
    (h : trace) :
  property event "context" = Returns context ->
  property event "fileInfo" = Returns fileInfo ->
  upload_complete context fileInfo = true ->
  let c := optional_property context "collectionName" in
  let i := optional_property context "itemId" in
  (forall item, wixData_get P h c i <> Returns (Some item)) ->
  wixMediaManager_onFileUploaded P event h
  = (Returns tt, h ++ [WixDataGet c i; failed_write_back]).
Proof.
  intros Hc Hf Hcomplete c i Hget.
  rewrite (onFileUploaded_guard _ _ _ _ _ Hc Hf), Hcomplete.
  unfold write_back, try_catch, mbind, M_bind, call, throw, console. fold c i.
  destruct (wixData_get P h c i) as [[item|]|err].
  - by destruct (Hget item).
  - unfold failed_write_back. by rewrite <- app_assoc.
  - unfold failed_write_back. by rewrite <- app_assoc.
Qed.

Lemma failed_read_writes_nothing_witness :
  upload_complete
    (VObj [ ("collectionName", VStr "Books"); ("itemId", VStr "item1");
            ("fieldName", VStr "cover") ])
    (VObj [ ("fileUrl", VStr "wix:image://v1/a.png") ]) = true
  /\ wixMediaManager_onFileUploaded (reliable "secret1" None) complete_event []
    = (Returns tt, [] ++ [WixDataGet (VStr "Books") (VStr "item1"); failed_write_back]).
Proof.
  split; [reflexivity|].
  apply (failed_read_writes_nothing (reliable "secret1" None) complete_event
           (VObj [ ("collectionName", VStr "Books"); ("itemId", VStr "item1");
                   ("fieldName", VStr "cover") ])
           (VObj [ ("fileUrl", VStr "wix:image://v1/a.png") ]) []);
    first [reflexivity | discriminate].
Defined.

(** X24.  The older copy of the upload handler differs from the one of
    [uploadImageToItem.js] only without a context: on an event whose context
    is an object it does the very same when the context and the URL are
    complete, and otherwise only logs a warning. *)
Theorem older_copy_agrees_with_context (P : platform) (event context fileInfo : value)
    (h : trace) :
  property event "context" = Returns context ->
  property event "fileInfo" = Returns fileInfo ->
  nullish context = false ->
  OlderCopy.wixMediaManager_onFileUploaded P event h
  = if upload_complete context fileInfo
    then wixMediaManager_onFileUploaded P event h
    else (Returns tt, h ++ [Console WarnLevel "Missing context or fileUrl in upload event:"]).
Proof.
  intros Hc Hf Hnn. rewrite (onFileUploaded_guard _ _ _ _ _ Hc Hf).
  unfold OlderCopy.wixMediaManager_onFileUploaded, mbind, M_bind, lift.
  rewrite Hc, Hf, !property_not_nullish by done.
  fold (upload_complete context fileInfo).
  by destruct (upload_complete context fileInfo).
Qed.

Lemma older_copy_agrees_with_context_witness :
  nullish (VObj []) = false
  /\ OlderCopy.wixMediaManager_onFileUploaded (reliable "secret1" None)
       event_with_empty_context []
    = if upload_complete (VObj []) (VObj [ ("fileUrl", VStr "wix:image://v1/a.png") ])
      then wixMediaManager_onFileUploaded (reliable "secret1" None)
             event_with_empty_context []
      else (Returns tt,
            [] ++ [Console WarnLevel "Missing context or fileUrl in upload event:"]).
Proof.
  split; [reflexivity|].
  apply (older_copy_agrees_with_context (reliable "secret1" None)
           event_with_empty_context (VObj [])
           (VObj [ ("fileUrl", VStr "wix:image://v1/a.png") ]) []); reflexivity.
Defined.

(** ** isPermitted: requests without a credential *)

(** X25.  A request with neither an [authorization] nor an [auth] header is
    refused whatever the secret is, the empty string included. *)
Theorem no_credential_refused (P : platform) (secretName : string)
    (hs : gmap string string) (h : trace) :
  hs !! "authorization" = None -> hs !! "auth" = None ->
  fst (isPermitted P secretName hs h) = Returns false.
Proof.
  intros H1 H2. rewrite isPermitted_eval.
  destruct (getSecret P h secretName); [|done].
  unfold header. by rewrite H1, H2.
Qed.

Lemma no_credential_refused_witness :
  ({[ "content-type" := "application/json" ]} : gmap string string) !! "auth" = None
  /\ fst (isPermitted (reliable EmptyString None) "my_secret"
            {[ "content-type" := "application/json" ]} []) = Returns false.
Proof.
  split; [reflexivity|].
  apply (no_credential_refused (reliable EmptyString None) "my_secret"
           {[ "content-type" := "application/json" ]} []); reflexivity.
Defined.

(** ** post_imageBulkUploader: one entry *)

(** X26.  For an entry with an [imageName] that is a non-empty string and
    with a [publicUrl], the folder being named by a string, the MIME type
    of the import comes from [imageName] and not from the URL; the entry
    makes exactly one import, of the URL into the folder, and when the
    import resolves to an object its result pairs the URL with the
    [fileUrl], [fileName] and [mediaId] of that object. *)
Theorem image_name_decides_mime (P : platform) (folder : string) (image url : value)
    (name : string) (h : trace) :
  property image "imageName" = Returns (VStr name) -> name <> EmptyString ->
  property image "publicUrl" = Returns url -> truthy url = true ->
  exists mime,
    getMimeType (VStr name) = Returns mime
    /\ snd (upload_image P (VStr folder) image h)
       = h ++ [ImportFile ("/" +:+ folder) url mime None]
    /\ forall r,
         mediaManager_importFile P h ("/" +:+ folder) url mime None = Returns (VObj r) ->
         fst (upload_image P (VStr folder) image h)
         = Returns (Some {| originalUrl := url;
                            fileUrl := read_property r "fileUrl";
                            fileName := read_property r "fileName";
                            mediaId := read_property r "mediaId" |}).
Proof.
  intros Hname Hne Hurl Htruthy. eexists. split; [reflexivity|].
  unfold upload_image, mbind, M_bind, lift, call, console, mret, M_ret.
  rewrite Hname, Hurl, Htruthy, (truthy_string name Hne). cbn [negb].
  change (getMimeType (VStr name))
    with (Returns (js_or (read_property mime_map (toLowerCase (pop (split "." name))))
                     (VStr "image/jpeg"))).
  cbn [ToString_call ToPrimitive_throws ToString]. cbv beta iota. split.
  - destruct (mediaManager_importFile P h _ _ _ _) as [r|err]; [|done].
    by destruct (property r "fileUrl"), (property r "fileName"), (property r "mediaId").
  - intros r ->. done.
Qed.

Lemma image_name_decides_mime_witness :
  truthy (VStr "http://x/photo.png") = true
  /\ exists mime,
      getMimeType (VStr "photo") = Returns mime
      /\ snd (upload_image (reliable "secret1" None) (VStr "f")
                (VObj [ ("imageName", VStr "photo");
                        ("publicUrl", VStr "http://x/photo.png") ]) [])
         = [] ++ [ImportFile ("/" +:+ "f") (VStr "http://x/photo.png") mime None]
      /\ forall r,
           mediaManager_importFile (reliable "secret1" None) []
             ("/" +:+ "f") (VStr "http://x/photo.png") mime None
           = Returns (VObj r) ->
           fst (upload_image (reliable "secret1" None) (VStr "f")
                  (VObj [ ("imageName", VStr "photo");
                          ("publicUrl", VStr "http://x/photo.png") ]) [])
           = Returns (Some {| originalUrl := VStr "http://x/photo.png";
                              fileUrl := read_property r "fileUrl";
                              fileName := read_property r "fileName";
                              mediaId := read_property r "mediaId" |}).
Proof.
  split; [reflexivity|].
  apply (image_name_decides_mime (reliable "secret1" None) "f"
           (VObj [ ("imageName", VStr "photo"); ("publicUrl", VStr "http://x/photo.png") ])
           (VStr "http://x/photo.png") "photo" []);
    first [reflexivity | discriminate].
Defined.
